(** * gofileserver, package [files]: the transactional storage core

    A shallow embedding of [internal/files/files.go].  The package keeps two
    buckets of one Bolt database: [UserFileBucket] maps a user identifier to
    the JSON encoding of that user's [UserData] (file name to
    [FileMetadata]), and [FileBucket] maps a content identifier to the raw
    bytes of a file.  Every exported function opens the database, runs one
    [db.View] or [db.Update] closure and closes it again, so a call is a
    function of the database contents.

    What lies outside the package is taken as follows.
    - [encoding/json] is a parameter ([json.Codec]) with the one law that
      decoding what was just encoded gives the value back.  The law holds of
      the real encoder on strings that are valid UTF-8.
    - A Bolt bucket is a finite map from keys to byte strings; a write inside
      an open read-write transaction succeeds.  Failures of the engine itself
      (I/O, a blank or oversized key) are not modelled, so the [err != nil]
      tests that follow [json.Marshal], [Put] and [Delete] never fire and are
      left out.
    - [uuid.New().String()] is random: the identifier it would return is an
      argument of [PutFile].
    - [fmt.Printf] diagnostics are not part of the state and are dropped.

    The second half of the file embeds the callers: package [auth]
    ([CreateUser], [Login], [ValidateToken]) and the [/files] handlers of
    package [main], with [strconv.Atoi], the limited body reader and the
    response writer modelled alongside.

    Module [strict] embeds the four operations once more with the two
    idealisations removed: the codec law holds for valid UTF-8 data only and
    Bolt's [Put] checks its arguments.  The properties that depend on what
    the libraries accept (round trip, overwrite, and what follows a
    [PutFile] of an arbitrary name) are stated and proved there. *)

From stdpp Require Import base option countable strings list gmap sorting.
From Stdlib.Strings Require Import Byte.

Notation bytes := (list byte).

(** ** Data model *)

(** [type FileMetadata struct]; Go's [int] is read as an integer. *)
Record FileMetadata := {
  ID : string;
  ContentType : string;
  ContentLength : Z
}.

(** [type UserData struct].  A Go map is a reference that may be [nil]:
    [None] is the nil map, [Some m] an allocated one. *)
Record UserData := {
  Files : option (gmap string FileMetadata)
}.

(** Go's [error] values met in this package. *)
Inductive error :=
  | errors_New (text : string)
  | json_error.

Module json.
(** [json.Marshal] and [json.Unmarshal] at type [UserData].  Marshalling a
    struct of strings, integers and a string-keyed map cannot fail. *)
Class Codec := {
  Marshal : UserData → bytes;
  Unmarshal : bytes → option UserData;
  Unmarshal_Marshal : ∀ userData, Unmarshal (Marshal userData) = Some userData
}.
End json.

Module bolt.
(** [Bucket.Get] returns nil when the key has no value. *)
Definition Get (key : string) (b : gmap string bytes) : option bytes := b !! key.
Definition Put (key : string) (value : bytes) (b : gmap string bytes) : gmap string bytes :=
  <[key := value]> b.
(** Deleting a key that does not exist does nothing. *)
Definition Delete (key : string) (b : gmap string bytes) : gmap string bytes :=
  delete key b.
End bolt.

(** The database file [gofileserver_files.db] with the two buckets that
    [init] creates. *)
Record DB := {
  UserFileBucket : gmap string bytes;
  FileBucket : gmap string bytes
}.

(** What [init] leaves behind on a fresh file. *)
Definition init : DB := {| UserFileBucket := ∅; FileBucket := ∅ |}.

(** ** Transactions

    The closure given to [db.View] or [db.Update] either returns nil (the
    transaction commits), returns an error (it rolls back) or panics (Bolt
    rolls back and the panic propagates to the caller). *)
Inductive tx (A : Type) :=
  | Commit (a : A)
  | Rollback (err : error)
  | Panic.
Arguments Commit {A} a.
Arguments Rollback {A} err.
Arguments Panic {A}.

#[global] Instance tx_ret : MRet tx := λ A a, Commit a.
#[global] Instance tx_bind : MBind tx := λ A B f c,
  match c with
  | Commit a => f a
  | Rollback err => Rollback err
  | Panic => Panic
  end.

(** The error a call hands back: nil after a commit. *)
Definition returned {A} (c : tx A) : option error :=
  match c with
  | Rollback err => Some err
  | _ => None
  end.

(** The database after an update transaction on [db]. *)
Definition after (db : DB) (c : tx DB) : DB :=
  match c with
  | Commit db' => db'
  | _ => db
  end.

(** [len(bytes)] *)
Definition len (b : bytes) : Z := Z.of_nat (length b).

(** [for filename := range files { filenames = append(filenames, filename) }]
    starting from a nil slice: the slice stays nil when there is nothing to
    range over.  Go leaves the order of iteration open; the keys are taken
    in the order of [map_to_list]. *)
Definition range_append (files : option (gmap string FileMetadata)) : option (list string) :=
  match files with
  | None => None
  | Some m => match (map_to_list m).*1 with
              | [] => None
              | l => Some l
              end
  end.

Section files.
Context `{!json.Codec}.

(** ** The four operations *)

Definition ListFilenames_view (db : DB) (userID : string) : tx (option (list string)) :=
  match bolt.Get userID (UserFileBucket db) with
  | None => Rollback (errors_New "user not found")
  | Some v =>
      match json.Unmarshal v with
      | None => Rollback json_error
      | Some userData => Commit (range_append (Files userData))
      end
  end.

(** The error of the transaction is assigned to [err] and never read. *)
Definition ListFilenames (db : DB) (userID : string) : list string :=
  let filenames :=
    match ListFilenames_view db userID with
    | Commit filenames => filenames
    | _ => None
    end in
  match filenames with
  | None => []
  | Some l => l
  end.

Definition GetFile_view (db : DB) (userID filename : string) : tx (bytes * string) :=
  match bolt.Get userID (UserFileBucket db) with
  | None => Rollback (errors_New "user not found")
  | Some v =>
      match json.Unmarshal v with
      | None => Rollback json_error
      | Some userData =>
          match Files userData ≫= (.!! filename) with
          | None => Rollback (errors_New "file not found")
          | Some fileMetadata =>
              let bucketBytes := bolt.Get (ID fileMetadata) (FileBucket db) in
              Commit (default [] bucketBytes, ContentType fileMetadata)
          end
      end
  end.

(** The result [bytes] is a nil slice ([None]) unless the closure reached
    its [make]. *)
Definition GetFile (db : DB) (userID filename : string) : option bytes * string * bool :=
  match GetFile_view db userID filename with
  | Commit (b, contentType) => (Some b, contentType, true)
  | _ => (None, "", false)
  end.

Definition PutFile (db : DB) (userID filename contentType : string) (b : bytes)
    (uuid : string) : tx DB :=
  userData ←
    match bolt.Get userID (UserFileBucket db) with
    | Some v =>
        match json.Unmarshal v with
        | None => Rollback json_error
        | Some userData => Commit userData
        end
    | None => Commit {| Files := Some ∅ |}
    end;
  match Files userData with
  | None => Panic
  | Some m =>
      let fileMetadata :=
        match m !! filename with
        | Some fileMetadata =>
            {| ID := ID fileMetadata; ContentType := contentType; ContentLength := len b |}
        | None =>
            {| ID := uuid; ContentType := contentType; ContentLength := len b |}
        end in
      let userData := {| Files := Some (<[filename := fileMetadata]> m) |} in
      let encoded := json.Marshal userData in
      Commit {| UserFileBucket := bolt.Put userID encoded (UserFileBucket db);
                FileBucket := bolt.Put (ID fileMetadata) b (FileBucket db) |}
  end.

Definition DeleteFile (db : DB) (userID filename : string) : tx DB :=
  match bolt.Get userID (UserFileBucket db) with
  | None => Commit db
  | Some v =>
      match json.Unmarshal v with
      | None => Rollback json_error
      | Some userData =>
          match Files userData ≫= (.!! filename) with
          | None => Rollback (errors_New "file not found")
          | Some fileMetadata =>
              let fileID := ID fileMetadata in
              let userData := {| Files := delete filename <$> Files userData |} in
              let encoded := json.Marshal userData in
              Commit {| UserFileBucket := bolt.Put userID encoded (UserFileBucket db);
                        FileBucket := bolt.Delete fileID (FileBucket db) |}
          end
      end
  end.

(** ** Reading a database

    [loaded db userID] is the map [PutFile] works on once it has read
    [userID]'s record: a fresh empty map when there is no record, the
    decoded map otherwise; [None] when the record does not decode or
    decodes to a nil map. *)
Definition loaded (db : DB) (userID : string) : option (gmap string FileMetadata) :=
  match UserFileBucket db !! userID with
  | None => Some ∅
  | Some v => json.Unmarshal v ≫= Files
  end.

(** The descriptor that [userID]'s index holds for [filename]. *)
Definition descriptor (db : DB) (userID filename : string) : option FileMetadata :=
  loaded db userID ≫= (.!! filename).

(** The descriptor [PutFile] stores: the identifier is kept when the name
    is already there and drawn anew otherwise. *)
Definition stamped (old : option FileMetadata) (contentType : string) (b : bytes)
    (uuid : string) : FileMetadata :=
  {| ID := match old with Some fileMetadata => ID fileMetadata | None => uuid end;
     ContentType := contentType;
     ContentLength := len b |}.

(** Every stored index record decodes to an allocated map, as the records
    written by [PutFile] and [DeleteFile] do. *)
Definition well_formed (db : DB) : Prop :=
  ∀ userID v, UserFileBucket db !! userID = Some v →
    ∃ m, json.Unmarshal v = Some {| Files := Some m |}.

(** Referential integrity: a referenced identifier has a blob, and no two
    (user, file name) pairs reference the same identifier. *)
Definition live (db : DB) : Prop :=
  ∀ userID filename fileMetadata,
    descriptor db userID filename = Some fileMetadata →
    is_Some (FileBucket db !! ID fileMetadata).

Definition unshared (db : DB) : Prop :=
  ∀ userID1 filename1 fm1 userID2 filename2 fm2,
    descriptor db userID1 filename1 = Some fm1 →
    descriptor db userID2 filename2 = Some fm2 →
    ID fm1 = ID fm2 →
    userID1 = userID2 ∧ filename1 = filename2.

Definition referential_integrity (db : DB) : Prop := live db ∧ unshared db.

(** An identifier is fresh when no blob is stored under it. *)
Definition fresh (db : DB) (uuid : string) : Prop := FileBucket db !! uuid = None.

(** Calls of the package and the databases they lead to.  [uuid.New]
    hands [PutFile] a fresh identifier. *)
Inductive call :=
  | List (userID : string)
  | Get (userID filename : string)
  | Put (userID filename contentType : string) (b : bytes) (uuid : string)
  | Delete (userID filename : string).

Inductive step : DB → call → DB → Prop :=
  | step_List db userID :
      step db (List userID) db
  | step_Get db userID filename :
      step db (Get userID filename) db
  | step_Put db userID filename contentType b uuid :
      fresh db uuid →
      step db (Put userID filename contentType b uuid)
           (after db (PutFile db userID filename contentType b uuid))
  | step_Delete db userID filename :
      step db (Delete userID filename) (after db (DeleteFile db userID filename)).


End files.

(** ** Further invariants of the two buckets *)

Section bookkeeping.
Context `{!json.Codec}.


(** Every blob is referenced by some descriptor. *)
Definition no_orphans (db : DB) : Prop :=
  ∀ fileID, is_Some (FileBucket db !! fileID) →
    ∃ userID filename fileMetadata,
      descriptor db userID filename = Some fileMetadata ∧ ID fileMetadata = fileID.

End bookkeeping.

(** * Package [auth]: users and session tokens

    [internal/auth] keeps a second Bolt file with two buckets, users by user
    name and tokens by access token.  SHA-256, the hexadecimal encoder and
    the JSON codec at the types [User] and [Token] are parameters; the
    identifier of [uuid.New] and the instant of [time.Now] are arguments. *)

Module auth.

Record User := {
  ID : string;
  Username : string;
  Password : string
}.

(** [Created] is a [time.Time], read as an instant. *)
Record Token := {
  AccessToken : string;
  UserID : string;
  Created : Z
}.

Class Imports := {
  sha256_Sum256 : bytes → bytes;
  hex_EncodeToString : bytes → string;
  MarshalUser : User → bytes;
  UnmarshalUser : bytes → option User;
  UnmarshalUser_MarshalUser : ∀ user, UnmarshalUser (MarshalUser user) = Some user;
  MarshalToken : Token → bytes;
  UnmarshalToken : bytes → option Token;
  UnmarshalToken_MarshalToken : ∀ token, UnmarshalToken (MarshalToken token) = Some token
}.

(** The database file [gofileserver_auth.db]. *)
Record DB := {
  UserBucket : gmap string bytes;
  TokenBucket : gmap string bytes
}.

Definition init : DB := {| UserBucket := ∅; TokenBucket := ∅ |}.

(** The character class [A-Za-z0-9]. *)
Definition alphanumeric (c : Ascii.ascii) : bool :=
  let n := Ascii.nat_of_ascii c in
  (48 <=? n) && (n <=? 57) || (65 <=? n) && (n <=? 90) || (97 <=? n) && (n <=? 122).

(** [regexp.MustCompile("[^A-Za-z0-9]+").MatchString]: some character lies
    outside the class.  A byte that is not ASCII belongs to a rune outside
    the class, so the test can be made byte by byte. *)
Definition invalidChars (s : string) : bool :=
  existsb (λ c, negb (alphanumeric c)) (String.list_ascii_of_string s).

Section auth.
Context `{!Imports}.

Definition hashPassword (password : string) : string :=
  let sum := sha256_Sum256 (String.list_byte_of_string password) in
  hex_EncodeToString sum.

(** [CreateUser] writes the identifier and the hashed password into the
    [User] it was given: a commit carries the new database and that [User]. *)
Definition CreateUser (db : DB) (user : User) (uuid : string) : tx (DB * User) :=
  if (String.length (Username user) <? 3) || (20 <? String.length (Username user))
     || invalidChars (Username user)
  then Rollback (errors_New "username must be 3 to 20 alphanumeric characters")
  else if String.length (Password user) <? 8
  then Rollback (errors_New "password must be at least 8 characters")
  else
    match bolt.Get (Username user) (UserBucket db) with
    | Some v => Rollback (errors_New "username already taken")
    | None =>
        let user := {| ID := uuid;
                       Username := Username user;
                       Password := hashPassword (Password user) |} in
        let encoded := MarshalUser user in
        Commit ({| UserBucket := bolt.Put (Username user) encoded (UserBucket db);
                   TokenBucket := TokenBucket db |}, user)
    end.

(** A commit carries the new database and the access token. *)
Definition Login (db : DB) (user : User) (uuid : string) (now : Z) : tx (DB * string) :=
  match bolt.Get (Username user) (UserBucket db) with
  | None => Rollback (errors_New "authentication failed")
  | Some v =>
      match UnmarshalUser v with
      | None =>
          Rollback (errors_New "authentication failed (failed parsing JSON from database)")
      | Some dbUser =>
          if decide (Password dbUser ≠ hashPassword (Password user))
          then Rollback (errors_New "authentication failed")
          else
            let accessToken := uuid in
            let token := {| AccessToken := accessToken;
                            UserID := ID dbUser;
                            Created := now |} in
            let encodedToken := MarshalToken token in
            Commit ({| UserBucket := UserBucket db;
                       TokenBucket := bolt.Put accessToken encodedToken (TokenBucket db) |},
                    accessToken)
      end
  end.

(** What [Login] returns: the token is the empty string with an error. *)
Definition Login_result (c : tx (DB * string)) : string * option error :=
  match c with
  | Commit (_, accessToken) => (accessToken, None)
  | _ => ("", returned c)
  end.

Definition ValidateToken (db : DB) (accessToken : string) : tx string :=
  if decide (accessToken = "")
  then Rollback (errors_New "invalid accessToken")
  else
    match bolt.Get accessToken (TokenBucket db) with
    | None => Rollback (errors_New "invalid accessToken")
    | Some v =>
        match UnmarshalToken v with
        | None =>
            Rollback (errors_New "invalid accessToken (failed parsing JSON from database)")
        | Some token => Commit (UserID token)
        end
    end.

(** The databases that [CreateUser] and [Login] lead to from [init], with
    access tokens that were not handed out before. *)
Inductive step : DB → DB → Prop :=
  | step_CreateUser db user uuid db' user' :
      CreateUser db user uuid = Commit (db', user') → step db db'
  | step_Login db user uuid now db' :
      TokenBucket db !! uuid = None →
      Login db user uuid now = Commit (db', uuid) → step db db'.

End auth.
End auth.

(** * Package [main]: the handlers for [/files]

    A handler is read as a function from the request and the database to
    what it wrote to its [http.ResponseWriter] and the database it leaves. *)

Module strconv.

Definition digit (c : Ascii.ascii) : option Z :=
  let n := Z.of_nat (Ascii.nat_of_ascii c) in
  if decide (48 ≤ n ≤ 57)%Z then Some (n - 48)%Z else None.

Fixpoint decimal (acc : Z) (s : string) : option Z :=
  match s with
  | EmptyString => Some acc
  | String c s => d ← digit c; decimal (10 * acc + d)%Z s
  end.

(** [strconv.Atoi]: an optional sign, then one or more decimal digits, with
    a value that fits a 64-bit [int]; [None] stands for an error. *)
Definition Atoi (s : string) : option Z :=
  let '(neg, ds) :=
    match s with
    | String c ds =>
        if decide (Ascii.nat_of_ascii c = 45) then (true, ds)        (* '-' *)
        else if decide (Ascii.nat_of_ascii c = 43) then (false, ds)  (* '+' *)
        else (false, s)
    | EmptyString => (false, s)
    end in
  match ds with
  | EmptyString => None
  | _ =>
      n ← decimal 0 ds;
      let n := if neg : bool then (- n)%Z else n in
      if decide (- 2 ^ 63 ≤ n < 2 ^ 63)%Z then Some n else None
  end.

End strconv.

Definition MAX_FILE_UPLOAD : Z := 1024 * 1024.

Definition StatusOK : Z := 200.
Definition StatusCreated : Z := 201.
Definition StatusNoContent : Z := 204.
Definition StatusBadRequest : Z := 400.
Definition StatusForbidden : Z := 403.
Definition StatusNotFound : Z := 404.
Definition StatusMethodNotAllowed : Z := 405.
Definition StatusInternalServerError : Z := 500.

(** A request body: the bytes it yields, whether reading ends in an error
    rather than in end of file, and whether [Close] fails. *)
Record ReadCloser := {
  Data : bytes;
  ReadErr : bool;
  CloseErr : bool
}.

(** [ioutil.ReadAll(io.LimitReader(body, n))]: the limited reader reports
    end of file once [n] bytes are out, before the body can fail. *)
Definition ReadAll_LimitReader (body : ReadCloser) (n : Z) : option bytes :=
  if decide (n ≤ len (Data body))%Z then Some (take (Z.to_nat n) (Data body))
  else if ReadErr body then None
  else Some (Data body).

(** The parts of an [http.Request] the handlers read; [URL_Path] is the
    path left by [http.StripPrefix]. *)
Record Request := {
  Method : string;
  URL_Path : string;
  Header : gmap string string;
  Body : ReadCloser
}.

(** [r.Header.Get(key)]: the empty string when the header is not there. *)
Definition Header_Get (r : Request) (key : string) : string :=
  default "" (Header r !! key).

(** The values handed to [json.NewEncoder(w).Encode]. *)
Inductive object :=
  | ErrorResponse (Error : string)
  | Filenames (files : list string).

Inductive written :=
  | Raw (b : bytes)
  | Encoded (obj : object).

(** What a handler did to its [http.ResponseWriter]: the headers it set,
    the status code it wrote and the body. *)
Record ResponseRecorder := {
  Code : Z;
  HeaderMap : gmap string string;
  Written : written
}.

(** A handler returns with a response and a database, or panics. *)
Inductive handled :=
  | Wrote (db : DB) (w : ResponseRecorder)
  | Panicked.

(** [jsonResponse] on a writer nothing was written to yet; [None] is a nil
    [obj]. *)
Definition jsonResponse (statusCode : Z) (obj : option object) : ResponseRecorder :=
  match obj with
  | Some o =>
      {| Code := statusCode;
         HeaderMap := {[ "Content-Type" := "application/json; charset=UTF-8" ]};
         Written := Encoded o |}
  | None =>
      {| Code := statusCode; HeaderMap := ∅; Written := Raw [] |}
  end.

Definition jsonErrorResponse (statusCode : Z) (errorMessage : string) : ResponseRecorder :=
  jsonResponse statusCode (Some (ErrorResponse errorMessage)).

Section handlers.
Context `{!json.Codec}.

Definition doFilesList (db : DB) (userID : string) : handled :=
  let files := ListFilenames db userID in
  Wrote db (jsonResponse StatusOK (Some (Filenames files))).

Definition doFilesGet (db : DB) (userID path : string) : handled :=
  match GetFile db userID path with
  | (fileBytes, contentType, false) => Wrote db (jsonResponse StatusNotFound None)
  | (fileBytes, contentType, true) =>
      Wrote db {| Code := StatusOK;
                  HeaderMap := {[ "Content-Type" := contentType ]};
                  Written := Raw (default [] fileBytes) |}
  end.

Definition doFilesPut (db : DB) (userID path : string) (r : Request) (uuid : string) : handled :=
  let contentType := Header_Get r "Content-Type" in
  match strconv.Atoi (Header_Get r "Content-Length") with
  | None => Wrote db (jsonErrorResponse StatusBadRequest "Content-Length required")
  | Some contentLength =>
      if decide (contentLength = 0)%Z
      then Wrote db (jsonErrorResponse StatusBadRequest "Content-Length required")
      else if decide (contentLength > MAX_FILE_UPLOAD)%Z
      then Wrote db (jsonErrorResponse StatusBadRequest "Content-Length exceeds maximum")
      else
        match ReadAll_LimitReader (Body r) MAX_FILE_UPLOAD with
        | None => Wrote db (jsonErrorResponse StatusBadRequest "Failed reading file upload")
        | Some bodyBytes =>
            if CloseErr (Body r)
            then Wrote db (jsonErrorResponse StatusInternalServerError "Failed closing body")
            else if decide (contentLength ≠ len bodyBytes)
            then Wrote db (jsonErrorResponse StatusBadRequest
                             "Content-Length does not match uploaded file")
            else
              match PutFile db userID path contentType bodyBytes uuid with
              | Rollback err => Wrote db (jsonErrorResponse StatusBadRequest "Failed saving file")
              | Panic => Panicked
              | Commit db' => Wrote db' (jsonResponse StatusCreated None)
              end
        end
  end.

Definition doFilesDelete (db : DB) (userID path : string) : handled :=
  match DeleteFile db userID path with
  | Rollback err => Wrote db (jsonErrorResponse StatusNotFound "file not found")
  | Panic => Panicked
  | Commit db' => Wrote db' (jsonResponse StatusNoContent None)
  end.

Section doFiles.
Context `{!auth.Imports}.

Definition doFiles (adb : auth.DB) (db : DB) (r : Request) (uuid : string) : handled :=
  let path := URL_Path r in
  let path :=
    match path with
    | EmptyString => path
    | String _ rest => rest
    end in
  match auth.ValidateToken adb (Header_Get r "X-Session") with
  | Commit userID =>
      if decide (Method r = "GET") then
        if decide (path = "") then doFilesList db userID
        else doFilesGet db userID path
      else if decide (Method r = "PUT") then doFilesPut db userID path r uuid
      else if decide (Method r = "DELETE") then doFilesDelete db userID path
      else Wrote db {| Code := StatusMethodNotAllowed; HeaderMap := ∅; Written := Raw [] |}
  | _ => Wrote db {| Code := StatusForbidden; HeaderMap := ∅; Written := Raw [] |}
  end.

(** The file databases that requests to [/files] lead to from [init], under
    whatever the users' database holds at the time of each request. *)
Inductive served : DB → Prop :=
  | served_init : served init
  | served_doFiles adb db r uuid db' w :
      served db → doFiles adb db r uuid = Wrote db' w → served db'.

End doFiles.
End handlers.

(** * The operations over the libraries as they are

    The sections above read [encoding/json] as an exact round trip and a
    Bolt write as always succeeding.  Neither holds for every argument:
    [json.Marshal] replaces each byte of a string that is not part of a
    valid UTF-8 sequence by U+FFFD, map keys included, and [Bucket.Put]
    refuses an empty key, a key above [MaxKeySize] and a value above
    [MaxValueSize].  Module [strict] embeds the operations once more with
    these two facts written out: the codec law is assumed for valid UTF-8
    data only, and the [err != nil] tests after the two [Put] calls are
    kept. *)

Module utf8.

Definition byte (c : Ascii.ascii) : N := Ascii.N_of_ascii c.

Definition between (lo hi : N) (c : Ascii.ascii) : bool :=
  ((lo <=? byte c) && (byte c <=? hi))%N.

(** A continuation byte, [80..BF]. *)
Definition continuation : Ascii.ascii → bool := between 128 191.

(** The well-formed two, three and four byte sequences. *)
Definition seq2 (c0 c1 : Ascii.ascii) : bool :=
  between 194 223 c0 && continuation c1.

Definition seq3 (c0 c1 c2 : Ascii.ascii) : bool :=
  (between 224 224 c0 && between 160 191 c1
   || between 225 236 c0 && continuation c1
   || between 237 237 c0 && between 128 159 c1
   || between 238 239 c0 && continuation c1)
  && continuation c2.

Definition seq4 (c0 c1 c2 c3 : Ascii.ascii) : bool :=
  (between 240 240 c0 && between 144 191 c1
   || between 241 243 c0 && continuation c1
   || between 244 244 c0 && between 128 143 c1)
  && continuation c2 && continuation c3.

(** U+FFFD, the bytes [EF BF BD]. *)
Definition RuneError : string :=
  String (Ascii.ascii_of_N 239) (String (Ascii.ascii_of_N 191)
    (String (Ascii.ascii_of_N 189) EmptyString)).

(** What the JSON encoder writes for a string, read back: a well-formed
    sequence is copied, any other byte becomes U+FFFD. *)
Fixpoint coerce (s : string) : string :=
  match s with
  | EmptyString => EmptyString
  | String c0 s0 =>
      if (byte c0 <? 128)%N then String c0 (coerce s0)
      else
        match s0 with
        | String c1 s1 =>
            if seq2 c0 c1 then String c0 (String c1 (coerce s1))
            else
              match s1 with
              | String c2 s2 =>
                  if seq3 c0 c1 c2 then String c0 (String c1 (String c2 (coerce s2)))
                  else
                    match s2 with
                    | String c3 s3 =>
                        if seq4 c0 c1 c2 c3
                        then String c0 (String c1 (String c2 (String c3 (coerce s3))))
                        else RuneError +:+ coerce s0
                    | EmptyString => RuneError +:+ coerce s0
                    end
              | EmptyString => RuneError +:+ coerce s0
              end
        | EmptyString => RuneError +:+ coerce s0
        end
  end.

(** [utf8.ValidString]: the coercion leaves the string alone. *)
Definition Valid (s : string) : Prop := coerce s = s.

#[global] Instance Valid_dec (s : string) : Decision (Valid s).
Proof. unfold Valid. apply _. Defined.

End utf8.

Module strict.

(** The strings of a [UserData] that pass through the encoder. *)
Definition valid_map (m : gmap string FileMetadata) : Prop :=
  map_Forall (λ filename fileMetadata,
                utf8.Valid filename ∧
                utf8.Valid (ID fileMetadata) ∧
                utf8.Valid (ContentType fileMetadata)) m.

Definition valid_data (userData : UserData) : Prop :=
  ∀ m, Files userData = Some m → valid_map m.

(** [json.Marshal] and [json.Unmarshal] at type [UserData]: decoding what
    was encoded gives the value back when its strings are valid UTF-8. *)
Class Codec := {
  Marshal : UserData → bytes;
  Unmarshal : bytes → option UserData;
  Unmarshal_Marshal :
    ∀ userData, valid_data userData → Unmarshal (Marshal userData) = Some userData
}.

Module bolt.

Definition MaxKeySize : Z := 32768.
Definition MaxValueSize : Z := 2 ^ 31 - 2.

Definition Get (key : string) (b : gmap string bytes) : option bytes := b !! key.

(** [Bucket.Put] checks its arguments before it writes. *)
Definition Put (key : string) (value : bytes) (b : gmap string bytes)
    : error + gmap string bytes :=
  if decide (key = "") then inl (errors_New "key required")
  else if decide (Z.of_nat (String.length key) > MaxKeySize)%Z
  then inl (errors_New "key too large")
  else if decide (len value > MaxValueSize)%Z
  then inl (errors_New "value too large")
  else inr (<[key := value]> b).

Definition Delete (key : string) (b : gmap string bytes) : gmap string bytes :=
  delete key b.

(** The errors [Put] returns for its arguments. *)
Definition argument_error (err : error) : Prop :=
  err = errors_New "key required" ∨
  err = errors_New "key too large" ∨
  err = errors_New "value too large".

End bolt.

Section files.
Context `{!Codec}.

Definition ListFilenames_view (db : DB) (userID : string) : tx (option (list string)) :=
  match bolt.Get userID (UserFileBucket db) with
  | None => Rollback (errors_New "user not found")
  | Some v =>
      match Unmarshal v with
      | None => Rollback json_error
      | Some userData => Commit (range_append (Files userData))
      end
  end.

Definition ListFilenames (db : DB) (userID : string) : list string :=
  let filenames :=
    match ListFilenames_view db userID with
    | Commit filenames => filenames
    | _ => None
    end in
  match filenames with
  | None => []
  | Some l => l
  end.

Definition GetFile_view (db : DB) (userID filename : string) : tx (bytes * string) :=
  match bolt.Get userID (UserFileBucket db) with
  | None => Rollback (errors_New "user not found")
  | Some v =>
      match Unmarshal v with
      | None => Rollback json_error
      | Some userData =>
          match Files userData ≫= (.!! filename) with
          | None => Rollback (errors_New "file not found")
          | Some fileMetadata =>
              let bucketBytes := bolt.Get (ID fileMetadata) (FileBucket db) in
              Commit (default [] bucketBytes, ContentType fileMetadata)
          end
      end
  end.

Definition GetFile (db : DB) (userID filename : string) : option bytes * string * bool :=
  match GetFile_view db userID filename with
  | Commit (b, contentType) => (Some b, contentType, true)
  | _ => (None, "", false)
  end.

Definition PutFile (db : DB) (userID filename contentType : string) (b : bytes)
    (uuid : string) : tx DB :=
  userData ←
    match bolt.Get userID (UserFileBucket db) with
    | Some v =>
        match Unmarshal v with
        | None => Rollback json_error
        | Some userData => Commit userData
        end
    | None => Commit {| Files := Some ∅ |}
    end;
  match Files userData with
  | None => Panic
  | Some m =>
      let fileMetadata :=
        match m !! filename with
        | Some fileMetadata =>
            {| ID := ID fileMetadata; ContentType := contentType; ContentLength := len b |}
        | None =>
            {| ID := uuid; ContentType := contentType; ContentLength := len b |}
        end in
      let userData := {| Files := Some (<[filename := fileMetadata]> m) |} in
      let encoded := Marshal userData in
      match bolt.Put userID encoded (UserFileBucket db) with
      | inl err => Rollback err
      | inr userFilesBucket =>
          match bolt.Put (ID fileMetadata) b (FileBucket db) with
          | inl err => Rollback err
          | inr filesBucket =>
              Commit {| UserFileBucket := userFilesBucket; FileBucket := filesBucket |}
          end
      end
  end.

Definition DeleteFile (db : DB) (userID filename : string) : tx DB :=
  match bolt.Get userID (UserFileBucket db) with
  | None => Commit db
  | Some v =>
      match Unmarshal v with
      | None => Rollback json_error
      | Some userData =>
          match Files userData ≫= (.!! filename) with
          | None => Rollback (errors_New "file not found")
          | Some fileMetadata =>
              let fileID := ID fileMetadata in
              let userData := {| Files := delete filename <$> Files userData |} in
              let encoded := Marshal userData in
              match bolt.Put userID encoded (UserFileBucket db) with
              | inl err => Rollback err
              | inr userFilesBucket =>
                  Commit {| UserFileBucket := userFilesBucket;
                            FileBucket := bolt.Delete fileID (FileBucket db) |}
              end
          end
      end
  end.

(** The two handlers that meet in an upload followed by a download. *)
Definition doFilesGet (db : DB) (userID path : string) : handled :=
  match GetFile db userID path with
  | (fileBytes, contentType, false) => Wrote db (jsonResponse StatusNotFound None)
  | (fileBytes, contentType, true) =>
      Wrote db {| Code := StatusOK;
                  HeaderMap := {[ "Content-Type" := contentType ]};
                  Written := Raw (default [] fileBytes) |}
  end.

Definition doFilesPut (db : DB) (userID path : string) (r : Request) (uuid : string) : handled :=
  let contentType := Header_Get r "Content-Type" in
  match strconv.Atoi (Header_Get r "Content-Length") with
  | None => Wrote db (jsonErrorResponse StatusBadRequest "Content-Length required")
  | Some contentLength =>
      if decide (contentLength = 0)%Z
      then Wrote db (jsonErrorResponse StatusBadRequest "Content-Length required")
      else if decide (contentLength > MAX_FILE_UPLOAD)%Z
      then Wrote db (jsonErrorResponse StatusBadRequest "Content-Length exceeds maximum")
      else
        match ReadAll_LimitReader (Body r) MAX_FILE_UPLOAD with
        | None => Wrote db (jsonErrorResponse StatusBadRequest "Failed reading file upload")
        | Some bodyBytes =>
            if CloseErr (Body r)
            then Wrote db (jsonErrorResponse StatusInternalServerError "Failed closing body")
            else if decide (contentLength ≠ len bodyBytes)
            then Wrote db (jsonErrorResponse StatusBadRequest
                             "Content-Length does not match uploaded file")
            else
              match PutFile db userID path contentType bodyBytes uuid with
              | Rollback err => Wrote db (jsonErrorResponse StatusBadRequest "Failed saving file")
              | Panic => Panicked
              | Commit db' => Wrote db' (jsonResponse StatusCreated None)
              end
        end
  end.

(** ** Reading a database *)

(** The map [PutFile] works on once it has read [userID]'s record. *)
Definition loaded (db : DB) (userID : string) : option (gmap string FileMetadata) :=
  match UserFileBucket db !! userID with
  | None => Some ∅
  | Some v => Unmarshal v ≫= Files
  end.

Definition descriptor (db : DB) (userID filename : string) : option FileMetadata :=
  loaded db userID ≫= (.!! filename).

(** Every stored index record decodes to an allocated map of valid UTF-8
    strings; the strings [json.Unmarshal] produces always are. *)
Definition well_formed (db : DB) : Prop :=
  ∀ userID v, UserFileBucket db !! userID = Some v →
    ∃ m, Unmarshal v = Some {| Files := Some m |} ∧ valid_map m.

Definition live (db : DB) : Prop :=
  ∀ userID filename fileMetadata,
    descriptor db userID filename = Some fileMetadata →
    is_Some (FileBucket db !! ID fileMetadata).

Definition unshared (db : DB) : Prop :=
  ∀ userID1 filename1 fm1 userID2 filename2 fm2,
    descriptor db userID1 filename1 = Some fm1 →
    descriptor db userID2 filename2 = Some fm2 →
    ID fm1 = ID fm2 →
    userID1 = userID2 ∧ filename1 = filename2.

Definition referential_integrity (db : DB) : Prop := live db ∧ unshared db.

Definition no_orphans (db : DB) : Prop :=
  ∀ fileID, is_Some (FileBucket db !! fileID) →
    ∃ userID filename fileMetadata,
      descriptor db userID filename = Some fileMetadata ∧ ID fileMetadata = fileID.

(** The databases reached from [init] by uploads whose file name and
    content type are valid UTF-8, with identifiers as [uuid.New] draws them
    (fresh, and ASCII), and by deletions. *)
Inductive step : DB → DB → Prop :=
  | step_Put db userID filename contentType b uuid :
      utf8.Valid filename → utf8.Valid contentType →
      utf8.Valid uuid → FileBucket db !! uuid = None →
      step db (after db (PutFile db userID filename contentType b uuid))
  | step_Delete db userID filename :
      step db (after db (DeleteFile db userID filename)).

End files.
End strict.


(** ** A reference codec

    An encoding that meets [json.Codec], so that the results below can be run
    on concrete databases.  A [UserData] is numbered through stdpp's
    [Countable] and the number is written one binary digit per byte; any
    other byte makes the record unreadable. *)

#[global] Instance FileMetadata_eq_dec : EqDecision FileMetadata.
Proof. solve_decision. Defined.

#[global] Instance FileMetadata_countable : Countable FileMetadata.
Proof.
  refine (inj_countable'
            (λ x, (ID x, ContentType x, ContentLength x))
            (λ t, {| ID := t.1.1; ContentType := t.1.2; ContentLength := t.2 |}) _).
  by intros [].
Defined.

#[global] Instance UserData_eq_dec : EqDecision UserData.
Proof. solve_decision. Defined.

#[global] Instance UserData_countable : Countable UserData.
Proof.
  refine (inj_countable' Files (λ o, {| Files := o |}) _).
  by intros [].
Defined.

Fixpoint digits (p : positive) : bytes :=
  match p with
  | xH => []
  | xO p => x00 :: digits p
  | xI p => x01 :: digits p
  end.

Fixpoint undigits (l : bytes) : option positive :=
  match l with
  | [] => Some xH
  | x00 :: l => xO <$> undigits l
  | x01 :: l => xI <$> undigits l
  | _ => None
  end.

Lemma undigits_digits p : undigits (digits p) = Some p.
Proof. induction p as [p IH|p IH|]; simpl; by rewrite ?IH. Qed.

Lemma reference_roundtrip (userData : UserData) :
  undigits (digits (encode userData)) ≫= decode = Some userData.
Proof. rewrite undigits_digits. simpl. apply decode_encode. Qed.

Definition reference_codec : json.Codec := {|
  json.Marshal userData := digits (encode userData);
  json.Unmarshal v := undigits v ≫= decode;
  json.Unmarshal_Marshal := reference_roundtrip
|}.

(** A reference for the imports of [auth]: the codecs as above, a digest
    that reverses its input and an encoder that passes it through. *)

#[global] Instance auth_User_eq_dec : EqDecision auth.User.
Proof. solve_decision. Defined.

#[global] Instance auth_User_countable : Countable auth.User.
Proof.
  refine (inj_countable'
            (λ x, (auth.ID x, auth.Username x, auth.Password x))
            (λ t, {| auth.ID := t.1.1; auth.Username := t.1.2; auth.Password := t.2 |}) _).
  by intros [].
Defined.

#[global] Instance auth_Token_eq_dec : EqDecision auth.Token.
Proof. solve_decision. Defined.

#[global] Instance auth_Token_countable : Countable auth.Token.
Proof.
  refine (inj_countable'
            (λ x, (auth.AccessToken x, auth.UserID x, auth.Created x))
            (λ t, {| auth.AccessToken := t.1.1; auth.UserID := t.1.2; auth.Created := t.2 |}) _).
  by intros [].
Defined.

Lemma reference_roundtrip_User (user : auth.User) :
  undigits (digits (encode user)) ≫= decode = Some user.
Proof. rewrite undigits_digits. simpl. apply decode_encode. Qed.

Lemma reference_roundtrip_Token (token : auth.Token) :
  undigits (digits (encode token)) ≫= decode = Some token.
Proof. rewrite undigits_digits. simpl. apply decode_encode. Qed.

Definition reference_imports : auth.Imports := {|
  auth.sha256_Sum256 data := rev data;
  auth.hex_EncodeToString sum := String.string_of_list_byte sum;
  auth.MarshalUser user := digits (encode user);
  auth.UnmarshalUser v := undigits v ≫= decode;
  auth.UnmarshalUser_MarshalUser := reference_roundtrip_User;
  auth.MarshalToken token := digits (encode token);
  auth.UnmarshalToken v := undigits v ≫= decode;
  auth.UnmarshalToken_MarshalToken := reference_roundtrip_Token
|}.

(** An exact codec is in particular one for valid UTF-8 data: the first
    embedding is the strict one under an exact codec and accepted writes. *)
Definition strict_of_exact `{!json.Codec} : strict.Codec := {|
  strict.Marshal := json.Marshal;
  strict.Unmarshal := json.Unmarshal;
  strict.Unmarshal_Marshal userData _ := json.Unmarshal_Marshal userData
|}.

(** A reference for [strict.Codec].  It treats strings as [encoding/json]
    does: each string is coerced to valid UTF-8 on the way out, the entries
    of the map are written in the order of their keys, and of two entries
    whose keys have become equal the later one is kept. *)

Definition sanitize_metadata (fileMetadata : FileMetadata) : FileMetadata :=
  {| ID := utf8.coerce (ID fileMetadata);
     ContentType := utf8.coerce (ContentType fileMetadata);
     ContentLength := ContentLength fileMetadata |}.

Definition key_le (p q : string * FileMetadata) : Prop := String.leb p.1 q.1 = true.

#[global] Instance key_le_dec (p q : string * FileMetadata) : Decision (key_le p q).
Proof. unfold key_le. apply _. Defined.

Definition sanitize_map (m : gmap string FileMetadata) : gmap string FileMetadata :=
  list_to_map
    (reverse (prod_map utf8.coerce sanitize_metadata <$> merge_sort key_le (map_to_list m))).

Definition sanitize (userData : UserData) : UserData :=
  {| Files := sanitize_map <$> Files userData |}.

Lemma sanitize_map_valid (m : gmap string FileMetadata) :
  strict.valid_map m → sanitize_map m = m.
Proof.
  intros Hvalid. unfold sanitize_map.
  pose proof (merge_sort_Permutation key_le (map_to_list m)) as Hperm.
  assert (prod_map utf8.coerce sanitize_metadata <$> merge_sort key_le (map_to_list m)
          = merge_sort key_le (map_to_list m)) as ->.
  { rewrite <-(list_fmap_id (merge_sort key_le (map_to_list m))) at 2.
    apply Forall_fmap_ext_1, Forall_forall. intros [k fm] Hin. rewrite Hperm in Hin.
    apply elem_of_map_to_list in Hin.
    destruct (Hvalid _ _ Hin) as (Hk & Hid & Hct).
    unfold prod_map, sanitize_metadata. simpl.
    rewrite Hk, Hid, Hct. by destruct fm. }
  rewrite <-(list_to_map_to_list m) at 2.
  apply list_to_map_proper.
  - rewrite reverse_Permutation, Hperm. apply NoDup_fst_map_to_list.
  - by rewrite reverse_Permutation, Hperm.
Qed.

Lemma strict_reference_roundtrip (userData : UserData) :
  strict.valid_data userData →
  undigits (digits (encode (sanitize userData))) ≫= decode = Some userData.
Proof.
  intros Hvalid. rewrite undigits_digits. simpl. rewrite decode_encode. f_equal.
  destruct userData as [[m|]]; [|done].
  unfold sanitize. simpl. by rewrite sanitize_map_valid by by apply Hvalid.
Qed.

Definition strict_reference_codec : strict.Codec := {|
  strict.Marshal userData := digits (encode (sanitize userData));
  strict.Unmarshal v := undigits v ≫= decode;
  strict.Unmarshal_Marshal := strict_reference_roundtrip
|}.

(** ** Example databases, over the reference codec *)

Section reference.
#[local] Existing Instance reference_codec.

Definition a_txt : FileMetadata :=
  {| ID := "id-1"; ContentType := "text/plain"; ContentLength := 2 |}.

Definition bob_index : UserData := {| Files := Some {[ "a.txt" := a_txt ]} |}.

(** bob has uploaded a.txt with the two bytes "hi". *)
Definition db_bob : DB :=
  {| UserFileBucket := {[ "bob" := json.Marshal bob_index ]};
     FileBucket := {[ "id-1" := [x68; x69] ]} |}.

(** bob's record is not the encoding of anything. *)
Definition db_corrupt : DB :=
  {| UserFileBucket := {[ "bob" := [x02] ]}; FileBucket := ∅ |}.

(** bob's index names a blob that is not there. *)
Definition db_dangling : DB :=
  {| UserFileBucket := {[ "bob" := json.Marshal bob_index ]}; FileBucket := ∅ |}.

(** bob's record decodes to a nil map, as the JSON text [{}] does. *)
Definition db_nil : DB :=
  {| UserFileBucket := {[ "bob" := json.Marshal {| Files := None |} ]}; FileBucket := ∅ |}.

(** Bob registers with the password B1234567 and logs in. *)
#[local] Existing Instance reference_imports.

Definition bob_request : auth.User :=
  {| auth.ID := ""; auth.Username := "Bob"; auth.Password := "B1234567" |}.

Definition bob_stored : auth.User :=
  {| auth.ID := "u-1"; auth.Username := "Bob";
     auth.Password := auth.hashPassword "B1234567" |}.

Definition adb_bob : auth.DB :=
  {| auth.UserBucket := {[ "Bob" := auth.MarshalUser bob_stored ]};
     auth.TokenBucket := ∅ |}.

Definition adb_login : auth.DB :=
  {| auth.UserBucket := {[ "Bob" := auth.MarshalUser bob_stored ]};
     auth.TokenBucket :=
       {[ "t-1" := auth.MarshalToken {| auth.AccessToken := "t-1";
                                        auth.UserID := "u-1";
                                        auth.Created := 7 |} ]} |}.

(** An upload of the two bytes "hi" to [/files/a.txt] in Bob's session. *)
Definition put_a_txt : Request :=
  {| Method := "PUT";
     URL_Path := "/a.txt";
     Header := {[ "X-Session" := "t-1"; "Content-Type" := "text/plain";
                  "Content-Length" := "2" ]};
     Body := {| Data := [x68; x69]; ReadErr := false; CloseErr := false |} |}.

(** The same upload announcing three bytes. *)
Definition put_a_txt_3 : Request :=
  {| Method := "PUT";
     URL_Path := "/a.txt";
     Header := {[ "X-Session" := "t-1"; "Content-Type" := "text/plain";
                  "Content-Length" := "3" ]};
     Body := {| Data := [x68; x69]; ReadErr := false; CloseErr := false |} |}.

Definition get_root : Request :=
  {| Method := "GET";
     URL_Path := "/";
     Header := {[ "X-Session" := "t-1" ]};
     Body := {| Data := []; ReadErr := false; CloseErr := false |} |}.

(** The files database after [put_a_txt]: the file belongs to user u-1. *)
Definition db_u1 : DB :=
  {| UserFileBucket := {[ "u-1" := json.Marshal bob_index ]};
     FileBucket := {[ "id-1" := [x68; x69] ]} |}.

(** The one-byte string [FF], which is not valid UTF-8. *)
Definition xFF : string := String (Ascii.ascii_of_N 255) EmptyString.

#[local] Existing Instance strict_reference_codec.

(** [db_bob] as the strict operations leave it. *)
Definition sdb_bob : DB :=
  {| UserFileBucket := {[ "bob" := strict.Marshal bob_index ]};
     FileBucket := {[ "id-1" := [x68; x69] ]} |}.

End reference.

(** ** How the operations act on a database *)

Section properties.
Context `{!json.Codec}.
Implicit Types (db : DB) (u f ct uuid : string) (b : bytes).
Implicit Types (m : gmap string FileMetadata) (fm : FileMetadata).

Ltac unfold_ops :=
  unfold PutFile, DeleteFile, GetFile, GetFile_view, ListFilenames,
    ListFilenames_view, descriptor, loaded, bolt.Get, bolt.Put, bolt.Delete in *.

Lemma PutFile_loaded db u f ct b uuid m :
  loaded db u = Some m →
  PutFile db u f ct b uuid =
    Commit {| UserFileBucket :=
                <[u := json.Marshal {| Files := Some (<[f := stamped (m !! f) ct b uuid]> m) |}]>
                  (UserFileBucket db);
              FileBucket := <[ID (stamped (m !! f) ct b uuid) := b]> (FileBucket db) |}.
Proof.
  unfold_ops. intros Hm.
  destruct (UserFileBucket db !! u) as [v|] eqn:Hv; simpl in *.
  - destruct (json.Unmarshal v) as [[files]|]; simplify_eq/=.
    by destruct (m !! f).
  - simplify_eq/=. by rewrite lookup_empty.
Qed.

Lemma PutFile_not_loaded db u f ct b uuid :
  loaded db u = None → after db (PutFile db u f ct b uuid) = db.
Proof.
  unfold_ops.
  destruct (UserFileBucket db !! u) as [v|]; simpl; [|done].
  by destruct (json.Unmarshal v) as [[[files|]]|].
Qed.

Lemma loaded_insert_eq u files blobs m :
  loaded {| UserFileBucket := <[u := json.Marshal {| Files := Some m |}]> files;
            FileBucket := blobs |} u = Some m.
Proof.
  unfold loaded. simpl. by rewrite lookup_insert_eq, json.Unmarshal_Marshal.
Qed.

Lemma loaded_insert_ne u u' files blobs v :
  u ≠ u' →
  loaded {| UserFileBucket := <[u := v]> files; FileBucket := blobs |} u' =
  loaded {| UserFileBucket := files; FileBucket := blobs |} u'.
Proof. intros Hne. unfold loaded. simpl. by rewrite lookup_insert_ne. Qed.

Lemma loaded_after_PutFile_ne db u f ct b uuid u' :
  u ≠ u' → loaded (after db (PutFile db u f ct b uuid)) u' = loaded db u'.
Proof.
  intros Hne. destruct (loaded db u) as [m|] eqn:Hm.
  - rewrite (PutFile_loaded _ _ _ _ _ _ _ Hm). simpl.
    rewrite loaded_insert_ne by done. by destruct db.
  - by rewrite PutFile_not_loaded.
Qed.

Lemma descriptor_after_PutFile db u f ct b uuid m u' f' :
  loaded db u = Some m →
  descriptor (after db (PutFile db u f ct b uuid)) u' f' =
    if decide (u' = u ∧ f' = f) then Some (stamped (m !! f) ct b uuid)
    else descriptor db u' f'.
Proof.
  intros Hm. unfold descriptor at 1.
  destruct (decide (u = u')) as [<-|Hne].
  - rewrite (PutFile_loaded _ _ _ _ _ _ _ Hm). simpl.
    rewrite loaded_insert_eq. simpl. unfold descriptor. rewrite Hm. simpl.
    destruct (decide (f' = f)) as [->|Hf].
    + by rewrite lookup_insert_eq, decide_True.
    + rewrite lookup_insert_ne by done. rewrite decide_False; [done|by intros [_ ?]].
  - rewrite loaded_after_PutFile_ne by done.
    rewrite decide_False; [done|by intros [? _]].
Qed.

(** The four ways [DeleteFile] can go. *)
Lemma DeleteFile_absent db u f :
  UserFileBucket db !! u = None → DeleteFile db u f = Commit db.
Proof. unfold_ops. by intros ->. Qed.

Lemma DeleteFile_present db u f m fm :
  is_Some (UserFileBucket db !! u) →
  loaded db u = Some m →
  m !! f = Some fm →
  DeleteFile db u f =
    Commit {| UserFileBucket :=
                <[u := json.Marshal {| Files := Some (delete f m) |}]> (UserFileBucket db);
              FileBucket := delete (ID fm) (FileBucket db) |}.
Proof.
  unfold_ops. intros [v Hv] Hm Hf. rewrite Hv in *. simpl in *.
  destruct (json.Unmarshal v) as [[files]|]; simplify_eq/=.
  by rewrite Hf.
Qed.

Lemma DeleteFile_missing db u f :
  descriptor db u f = None → after db (DeleteFile db u f) = db.
Proof.
  unfold_ops.
  destruct (UserFileBucket db !! u) as [v|]; simpl; [|done].
  destruct (json.Unmarshal v) as [[files]|]; simpl; [|done].
  by intros ->.
Qed.

Lemma descriptor_after_DeleteFile db u f u' f' :
  descriptor (after db (DeleteFile db u f)) u' f' =
    if decide (u' = u ∧ f' = f) then None else descriptor db u' f'.
Proof.
  destruct (descriptor db u f) as [fm|] eqn:Hd.
  - unfold descriptor in Hd.
    destruct (loaded db u) as [m|] eqn:Hm; simplify_eq/=.
    assert (is_Some (UserFileBucket db !! u)) as Hsome.
    { unfold loaded in Hm. destruct (UserFileBucket db !! u); [done|].
      simplify_eq; by rewrite lookup_empty in Hd. }
    rewrite (DeleteFile_present _ _ _ _ _ Hsome Hm Hd). simpl.
    unfold descriptor at 1.
    destruct (decide (u = u')) as [<-|Hne].
    + rewrite loaded_insert_eq. simpl. unfold descriptor. rewrite Hm. simpl.
      destruct (decide (f' = f)) as [->|Hf].
      * by rewrite lookup_delete_eq, decide_True.
      * rewrite lookup_delete_ne by done. rewrite decide_False; [done|by intros [_ ?]].
    + rewrite loaded_insert_ne by done.
      rewrite decide_False; [by destruct db|by intros [? _]].
  - rewrite DeleteFile_missing by done.
    case_decide as Heq; [|done]. by destruct Heq as [-> ->].
Qed.

(** What the two readers return, in terms of [loaded] and [descriptor]. *)
Lemma ListFilenames_loaded db u :
  ListFilenames db u =
    match loaded db u with
    | Some m => (map_to_list m).*1
    | None => []
    end.
Proof.
  unfold_ops.
  destruct (UserFileBucket db !! u) as [v|]; simpl.
  - destruct (json.Unmarshal v) as [[[m|]]|]; simpl; try done.
    unfold range_append. by destruct ((map_to_list m).*1).
  - by rewrite map_to_list_empty.
Qed.

Lemma elem_of_ListFilenames db u f :
  f ∈ ListFilenames db u ↔ is_Some (descriptor db u f).
Proof.
  rewrite ListFilenames_loaded. unfold descriptor.
  destruct (loaded db u) as [m|]; simpl.
  - rewrite <-elem_of_dom. rewrite list_elem_of_fmap. split.
    + intros [[k fm] [-> Hin]]. apply elem_of_map_to_list in Hin.
      apply elem_of_dom. eauto.
    + intros [fm Hfm]%elem_of_dom. exists (f, fm). split; [done|].
      by apply elem_of_map_to_list.
  - split; [by intros ?%not_elem_of_nil | by intros [? ?]].
Qed.

Lemma NoDup_ListFilenames db u : NoDup (ListFilenames db u).
Proof.
  rewrite ListFilenames_loaded. destruct (loaded db u) as [m|].
  - apply NoDup_fst_map_to_list.
  - constructor.
Qed.

Lemma GetFile_descriptor db u f :
  GetFile db u f =
    match descriptor db u f with
    | Some fm => (Some (default [] (FileBucket db !! ID fm)), ContentType fm, true)
    | None => (None, "", false)
    end.
Proof.
  unfold_ops.
  destruct (UserFileBucket db !! u) as [v|]; simpl.
  - destruct (json.Unmarshal v) as [[files]|]; simpl; [|done].
    by destruct (files ≫= (.!! f)).
  - by rewrite lookup_empty.
Qed.

Lemma FileBucket_after_PutFile db u f ct b uuid m :
  loaded db u = Some m →
  FileBucket (after db (PutFile db u f ct b uuid)) =
    <[ID (stamped (m !! f) ct b uuid) := b]> (FileBucket db).
Proof. intros Hm. by rewrite (PutFile_loaded _ _ _ _ _ _ _ Hm). Qed.

Lemma FileBucket_after_DeleteFile db u f :
  FileBucket (after db (DeleteFile db u f)) =
    match descriptor db u f with
    | Some fm => delete (ID fm) (FileBucket db)
    | None => FileBucket db
    end.
Proof.
  unfold_ops.
  destruct (UserFileBucket db !! u) as [v|]; simpl; [|by rewrite lookup_empty].
  destruct (json.Unmarshal v) as [[files]|]; simpl; [|done].
  by destruct (files ≫= (.!! f)).
Qed.

Lemma descriptor_lookup db u f m :
  loaded db u = Some m → descriptor db u f = m !! f.
Proof. unfold descriptor. by intros ->. Qed.

Lemma well_formed_loaded db u : well_formed db → is_Some (loaded db u).
Proof.
  intros Hwf. unfold loaded.
  destruct (UserFileBucket db !! u) as [v|] eqn:Hv; [|done].
  destruct (Hwf _ _ Hv) as [m ->]. by exists m.
Qed.

Lemma filter_eq_not_elem_of (l : list string) (x : string) :
  x ∉ l → filter (λ y, y = x) l = [].
Proof.
  induction l as [|y l IH]; [done|].
  intros [Hne Hl]%not_elem_of_cons.
  rewrite filter_cons_False by done. by apply IH.
Qed.

(** A list without repetitions holds each of its members once. *)
Lemma NoDup_filter_eq_length (l : list string) (x : string) :
  NoDup l → x ∈ l → length (filter (λ y, y = x) l) = 1.
Proof.
  induction 1 as [|y l Hy Hl IH]; [by intros ?%not_elem_of_nil|].
  intros Hin. destruct (decide (y = x)) as [->|Hne].
  - rewrite filter_cons_True by done. simpl.
    by rewrite filter_eq_not_elem_of.
  - rewrite filter_cons_False by done. apply IH.
    by apply elem_of_cons in Hin as [?|?].
Qed.

(** *** Referential integrity along the steps *)

(** The identifier [PutFile] writes under is referenced by no other pair. *)
Lemma stamped_ID_unshared db u f ct b uuid m u' f' fm' :
  referential_integrity db → fresh db uuid →
  loaded db u = Some m →
  descriptor db u' f' = Some fm' →
  ID fm' = ID (stamped (m !! f) ct b uuid) →
  u' = u ∧ f' = f.
Proof.
  intros [Hlive Hun] Hfresh Hm Hd Hid.
  destruct (m !! f) as [old|] eqn:Hold; simpl in Hid.
  - eapply Hun; [exact Hd| |exact Hid].
    by rewrite (descriptor_lookup _ _ _ _ Hm).
  - destruct (Hlive _ _ _ Hd) as [blob Hblob].
    unfold fresh in Hfresh. congruence.
Qed.

Lemma PutFile_referential_integrity db u f ct b uuid :
  referential_integrity db → fresh db uuid →
  referential_integrity (after db (PutFile db u f ct b uuid)).
Proof.
  intros Hri Hfresh.
  destruct (loaded db u) as [m|] eqn:Hm; [|by rewrite PutFile_not_loaded].
  pose proof (descriptor_after_PutFile db u f ct b uuid m) as Hdesc.
  pose proof (stamped_ID_unshared db u f ct b uuid m) as Hkey.
  split.
  - intros u' f' fm' Hd. rewrite (FileBucket_after_PutFile _ _ _ _ _ _ _ Hm).
    rewrite Hdesc in Hd by done. case_decide as Hc.
    + simplify_eq. by rewrite lookup_insert_eq.
    + apply lookup_insert_is_Some'. right. by eapply Hri.
  - intros u1 f1 fm1 u2 f2 fm2 Hd1 Hd2 Hid.
    rewrite Hdesc in Hd1, Hd2 by done.
    destruct (decide (u1 = u ∧ f1 = f)) as [[-> ->]|H1],
             (decide (u2 = u ∧ f2 = f)) as [[-> ->]|H2]; simplify_eq.
    + done.
    + destruct H2. by eapply Hkey.
    + destruct H1. by eapply Hkey.
    + destruct Hri as [_ Hun]. by eapply Hun.
Qed.


Lemma init_referential_integrity : referential_integrity init.
Proof.
  split.
  - intros u f fm Hd. unfold descriptor, loaded in Hd. simpl in Hd.
    rewrite lookup_empty in Hd. simpl in Hd. by rewrite lookup_empty in Hd.
  - intros u1 f1 fm1 u2 f2 fm2 Hd. unfold descriptor, loaded in Hd. simpl in Hd.
    rewrite lookup_empty in Hd. simpl in Hd. by rewrite lookup_empty in Hd.
Qed.


Lemma UserFileBucket_after_PutFile_ne db u f ct b uuid u' :
  u ≠ u' →
  UserFileBucket (after db (PutFile db u f ct b uuid)) !! u' = UserFileBucket db !! u'.
Proof.
  intros Hne. destruct (loaded db u) as [m|] eqn:Hm.
  - rewrite (PutFile_loaded _ _ _ _ _ _ _ Hm). simpl. by rewrite lookup_insert_ne.
  - by rewrite PutFile_not_loaded.
Qed.

(** The error [DeleteFile] returns is decided by the user's record alone. *)
Lemma DeleteFile_returned_record db db' u f :
  UserFileBucket db' !! u = UserFileBucket db !! u →
  returned (DeleteFile db' u f) = returned (DeleteFile db u f).
Proof.
  unfold_ops. intros ->.
  destruct (UserFileBucket db !! u) as [v|]; simpl; [|done].
  destruct (json.Unmarshal v) as [[files]|]; simpl; [|done].
  by destruct (files ≫= (.!! f)).
Qed.

(** ** The claims *)


(** C3, as the code has it.  When [u]'s stored record does not decode, the
    transaction inside [ListFilenames] ends with the decoding error, the
    error is dropped, and the caller receives the empty list: the same
    answer as for a user with no record at all. *)
Theorem ListFilenames_corrupt db u v :
  UserFileBucket db !! u = Some v →
  json.Unmarshal v = None →
  ListFilenames_view db u = Rollback json_error ∧
  ListFilenames db u = [] ∧
  ListFilenames db u =
    ListFilenames {| UserFileBucket := delete u (UserFileBucket db);
                     FileBucket := FileBucket db |} u.
Proof.
  intros Hv Hbad. unfold_ops. simpl.
  by rewrite Hv, Hbad, lookup_delete_eq.
Qed.

(** C5. Delete: when [u]'s record decodes and holds [f], [DeleteFile]
    commits a database in which the record is re-encoded without [f] and
    the blob under the captured identifier is gone; [f] is then neither
    listed nor found, and the other names are untouched.  When the record
    decodes and does not hold [f], [DeleteFile] returns "file not found". *)
Theorem DeleteFile_spec db u f v userData :
  UserFileBucket db !! u = Some v →
  json.Unmarshal v = Some userData →
  match Files userData ≫= (.!! f) with
  | Some fm =>
      ∃ db', DeleteFile db u f = Commit db' ∧
             UserFileBucket db' =
               <[u := json.Marshal {| Files := delete f <$> Files userData |}]>
                 (UserFileBucket db) ∧
             FileBucket db' = delete (ID fm) (FileBucket db) ∧
             descriptor db' u f = None ∧
             (∀ f', f' ≠ f → descriptor db' u f' = descriptor db u f') ∧
             (f ∉ ListFilenames db' u) ∧
             GetFile db' u f = (None, "", false)
  | None =>
      DeleteFile db u f = Rollback (errors_New "file not found")
  end.
Proof.
  intros Hv Hud.
  pose proof (descriptor_after_DeleteFile db u f u) as Hd.
  revert Hd. unfold DeleteFile, bolt.Get, bolt.Put, bolt.Delete.
  rewrite Hv, Hud.
  destruct (Files userData ≫= (.!! f)) as [fm|] eqn:Hf; [|done].
  simpl. intros Hd.
  eexists. split; [done|]. simpl.
  pose proof (Hd f) as Hdf. rewrite decide_True in Hdf by done.
  repeat split; try done.
  - intros f' Hne. rewrite Hd. rewrite decide_False; [done|by intros [_ ?]].
  - rewrite elem_of_ListFilenames, Hdf. by intros [? ?].
  - by rewrite GetFile_descriptor, Hdf.
Qed.

(** C6. [GetFile] gives the same result, nil bytes, the empty content type
    and not present, for a user with no record and for a user whose record
    decodes and does not hold [f]. *)
Theorem GetFile_not_found_uniform dba dbb u f v userData :
  UserFileBucket dba !! u = None →
  UserFileBucket dbb !! u = Some v →
  json.Unmarshal v = Some userData →
  Files userData ≫= (.!! f) = None →
  GetFile dba u f = GetFile dbb u f ∧ GetFile dbb u f = (None, "", false).
Proof.
  intros Ha Hb Hud Hf. unfold_ops. by rewrite Ha, Hb, Hud, Hf.
Qed.

(** C7. Isolation: on a database with referential integrity, [PutFile] for
    [u1] with a fresh identifier leaves the record of every other user
    [u2] and every blob that record references as they were, and with them
    what [ListFilenames], [GetFile] and [DeleteFile] do for [u2]. *)
Theorem PutFile_isolation db u1 u2 f ct b uuid :
  u1 ≠ u2 →
  referential_integrity db →
  fresh db uuid →
  let db' := after db (PutFile db u1 f ct b uuid) in
  UserFileBucket db' !! u2 = UserFileBucket db !! u2 ∧
  (∀ f2 fm, descriptor db u2 f2 = Some fm →
            FileBucket db' !! ID fm = FileBucket db !! ID fm) ∧
  ListFilenames db' u2 = ListFilenames db u2 ∧
  (∀ f2, GetFile db' u2 f2 = GetFile db u2 f2) ∧
  (∀ f2, returned (DeleteFile db' u2 f2) = returned (DeleteFile db u2 f2)) ∧
  (∀ f2, UserFileBucket (after db' (DeleteFile db' u2 f2)) !! u2 =
         UserFileBucket (after db (DeleteFile db u2 f2)) !! u2).
Proof.
  intros Hne Hri Hfresh db'.
  assert (UserFileBucket db' !! u2 = UserFileBucket db !! u2) as Hrec
    by by apply UserFileBucket_after_PutFile_ne.
  assert (loaded db' u2 = loaded db u2) as Hload
    by by apply loaded_after_PutFile_ne.
  assert (∀ f2 fm, descriptor db u2 f2 = Some fm →
                   FileBucket db' !! ID fm = FileBucket db !! ID fm) as Hblob.
  { intros f2 fm Hd. subst db'.
    destruct (loaded db u1) as [m|] eqn:Hm; [|by rewrite PutFile_not_loaded].
    rewrite (FileBucket_after_PutFile _ _ _ _ _ _ _ Hm).
    apply lookup_insert_ne. intros Hid. destruct Hne.
    symmetry in Hid. symmetry.
    by eapply (stamped_ID_unshared db u1 f ct b uuid m u2 f2 fm). }
  repeat split; try done.
  - by rewrite !ListFilenames_loaded, Hload.
  - intros f2. rewrite !GetFile_descriptor. unfold descriptor at 1. rewrite Hload.
    fold (descriptor db u2 f2).
    destruct (descriptor db u2 f2) as [fm|] eqn:Hd; [|done].
    by rewrite (Hblob _ _ Hd).
  - intros f2. by apply DeleteFile_returned_record.
  - intros f2. unfold DeleteFile, bolt.Get, bolt.Put, bolt.Delete. rewrite Hrec.
    destruct (UserFileBucket db !! u2) as [v|] eqn:Hv; simpl; [|by rewrite Hrec, Hv].
    destruct (json.Unmarshal v) as [[files]|]; simpl; [|by rewrite Hrec, Hv].
    destruct (files ≫= (.!! f2)); simpl; [|by rewrite Hrec, Hv].
    by rewrite !lookup_insert_eq.
Qed.

(** C8. [DeleteFile] for a user with no record commits the database as it
    is: it returns nil and changes nothing. *)
Theorem DeleteFile_no_record db u f :
  UserFileBucket db !! u = None →
  DeleteFile db u f = Commit db ∧
  returned (DeleteFile db u f) = None ∧
  after db (DeleteFile db u f) = db.
Proof. intros Hu. by rewrite DeleteFile_absent. Qed.

(** C9. [ListFilenames] for a user with no record returns the empty list;
    it has no error to return. *)
Theorem ListFilenames_no_record db u :
  UserFileBucket db !! u = None → ListFilenames db u = [].
Proof. intros Hu. unfold_ops. by rewrite Hu. Qed.

(** C10. Dangling reference: when [u]'s index holds a descriptor for [f]
    and no blob is stored under its identifier, [GetFile] reports the file
    present and returns an allocated slice of length zero with the stored
    content type. *)
Theorem GetFile_dangling db u f fm :
  descriptor db u f = Some fm →
  FileBucket db !! ID fm = None →
  GetFile db u f = (Some [], ContentType fm, true).
Proof. intros Hd Hb. by rewrite GetFile_descriptor, Hd, Hb. Qed.

End properties.

(** ** The claims on the example databases *)

Section examples.
#[local] Existing Instance reference_codec.

(** The operations run on the example databases. *)
Example PutFile_second_file :
  let db := after db_bob (PutFile db_bob "bob" "b.txt" "text/html" [x61] "id-2") in
  ListFilenames db "bob" = ["a.txt"; "b.txt"] ∧
  GetFile db "bob" "a.txt" = (Some [x68; x69], "text/plain", true) ∧
  GetFile db "bob" "b.txt" = (Some [x61], "text/html", true).
Proof. vm_compute. done. Qed.

Example DeleteFile_only_file :
  let db := after db_bob (DeleteFile db_bob "bob" "a.txt") in
  ListFilenames db "bob" = [] ∧ FileBucket db !! "id-1" = None.
Proof. vm_compute. done. Qed.

Example PutFile_corrupt :
  PutFile db_corrupt "bob" "a.txt" "text/plain" [x68; x69] "id-2" = Rollback json_error.
Proof. reflexivity. Qed.

Example GetFile_corrupt : GetFile db_corrupt "bob" "a.txt" = (None, "", false).
Proof. reflexivity. Qed.

Example DeleteFile_corrupt : DeleteFile db_corrupt "bob" "a.txt" = Rollback json_error.
Proof. reflexivity. Qed.

(** Assignment to an entry of a nil map panics; reading one finds nothing. *)
Example PutFile_nil_map :
  PutFile db_nil "bob" "a.txt" "text/plain" [x68; x69] "id-2" = Panic.
Proof. vm_compute. reflexivity. Qed.

Example DeleteFile_nil_map :
  DeleteFile db_nil "bob" "a.txt" = Rollback (errors_New "file not found").
Proof. vm_compute. reflexivity. Qed.

Lemma db_bob_PutFile :
  PutFile init "bob" "a.txt" "text/plain" [x68; x69] "id-1" = Commit db_bob.
Proof. reflexivity. Qed.

Lemma db_bob_well_formed : well_formed db_bob.
Proof.
  intros u v Hv. unfold db_bob in Hv. simpl in Hv.
  apply lookup_singleton_Some in Hv as [_ <-].
  exists {[ "a.txt" := a_txt ]}. exact (json.Unmarshal_Marshal bob_index).
Qed.

Lemma db_bob_descriptor : descriptor db_bob "bob" "a.txt" = Some a_txt.
Proof. vm_compute. reflexivity. Qed.

Lemma db_bob_referential_integrity : referential_integrity db_bob.
Proof.
  change db_bob
    with (after init (PutFile init "bob" "a.txt" "text/plain" [x68; x69] "id-1")).
  apply PutFile_referential_integrity; [apply init_referential_integrity|reflexivity].
Qed.


Lemma ListFilenames_corrupt_witness :
  ListFilenames_view db_corrupt "bob" = Rollback json_error ∧
  ListFilenames db_corrupt "bob" = [] ∧
  ListFilenames db_corrupt "bob" =
    ListFilenames {| UserFileBucket := delete "bob" (UserFileBucket db_corrupt);
                     FileBucket := FileBucket db_corrupt |} "bob".
Proof.
  apply (ListFilenames_corrupt db_corrupt "bob" [x02]); reflexivity.
Defined.

(** C3 as the specification words it fails: bob's record is stored and does
    not decode, and [ListFilenames] answers with the empty list, which is
    also its answer on the initial database where bob has no record. *)
Lemma ListFilenames_corrupt_counterexample :
  UserFileBucket db_corrupt !! "bob" = Some [x02] ∧
  json.Unmarshal [x02] = None ∧
  ListFilenames db_corrupt "bob" = [] ∧
  ListFilenames db_corrupt "bob" = ListFilenames init "bob".
Proof. repeat split; vm_compute; reflexivity. Qed.

Lemma DeleteFile_spec_witness :
  (∃ db', DeleteFile db_bob "bob" "a.txt" = Commit db' ∧
          UserFileBucket db' =
            <["bob" := json.Marshal {| Files := Some (delete "a.txt" {[ "a.txt" := a_txt ]}) |}]>
              (UserFileBucket db_bob) ∧
          FileBucket db' = delete "id-1" (FileBucket db_bob) ∧
          descriptor db' "bob" "a.txt" = None ∧
          (∀ f', f' ≠ "a.txt" → descriptor db' "bob" f' = descriptor db_bob "bob" f') ∧
          ("a.txt" ∉ ListFilenames db' "bob") ∧
          GetFile db' "bob" "a.txt" = (None, "", false)) ∧
  DeleteFile db_bob "bob" "b.txt" = Rollback (errors_New "file not found").
Proof.
  split.
  - apply (DeleteFile_spec db_bob "bob" "a.txt" (json.Marshal bob_index) bob_index).
    + reflexivity.
    + vm_compute. reflexivity.
  - apply (DeleteFile_spec db_bob "bob" "b.txt" (json.Marshal bob_index) bob_index).
    + reflexivity.
    + vm_compute. reflexivity.
Defined.

Lemma GetFile_not_found_uniform_witness :
  GetFile init "bob" "b.txt" = GetFile db_bob "bob" "b.txt" ∧
  GetFile db_bob "bob" "b.txt" = (None, "", false).
Proof.
  apply (GetFile_not_found_uniform init db_bob "bob" "b.txt"
           (json.Marshal bob_index) bob_index).
  - reflexivity.
  - reflexivity.
  - vm_compute. reflexivity.
  - reflexivity.
Defined.

Lemma PutFile_isolation_witness :
  let db' := after db_bob (PutFile db_bob "alice" "a.txt" "image/png" [x00] "id-2") in
  UserFileBucket db' !! "bob" = UserFileBucket db_bob !! "bob" ∧
  (∀ f2 fm, descriptor db_bob "bob" f2 = Some fm →
            FileBucket db' !! ID fm = FileBucket db_bob !! ID fm) ∧
  ListFilenames db' "bob" = ListFilenames db_bob "bob" ∧
  (∀ f2, GetFile db' "bob" f2 = GetFile db_bob "bob" f2) ∧
  (∀ f2, returned (DeleteFile db' "bob" f2) = returned (DeleteFile db_bob "bob" f2)) ∧
  (∀ f2, UserFileBucket (after db' (DeleteFile db' "bob" f2)) !! "bob" =
         UserFileBucket (after db_bob (DeleteFile db_bob "bob" f2)) !! "bob").
Proof.
  apply (PutFile_isolation db_bob "alice" "bob" "a.txt" "image/png" [x00] "id-2").
  - discriminate.
  - exact db_bob_referential_integrity.
  - reflexivity.
Defined.

Lemma DeleteFile_no_record_witness :
  DeleteFile db_bob "alice" "a.txt" = Commit db_bob ∧
  returned (DeleteFile db_bob "alice" "a.txt") = None ∧
  after db_bob (DeleteFile db_bob "alice" "a.txt") = db_bob.
Proof. apply (DeleteFile_no_record db_bob "alice" "a.txt"). reflexivity. Defined.

Lemma ListFilenames_no_record_witness : ListFilenames db_bob "alice" = [].
Proof. apply (ListFilenames_no_record db_bob "alice"). reflexivity. Defined.

Lemma GetFile_dangling_witness :
  GetFile db_dangling "bob" "a.txt" = (Some [], "text/plain", true).
Proof.
  apply (GetFile_dangling db_dangling "bob" "a.txt" a_txt).
  - vm_compute. reflexivity.
  - reflexivity.
Defined.

End examples.

(** ** Further properties of the four operations *)

Section operations.
Context `{!json.Codec}.
Implicit Types (db : DB) (u f ct uuid : string) (b : bytes).
Implicit Types (m : gmap string FileMetadata) (fm : FileMetadata).

Ltac unfold_files :=
  unfold PutFile, DeleteFile, GetFile, GetFile_view, ListFilenames,
    ListFilenames_view, descriptor, loaded, bolt.Get, bolt.Put, bolt.Delete in *.

(** [PutFile] commits exactly when the user's map can be loaded. *)
Lemma PutFile_Commit_loaded db u f ct b uuid db' :
  PutFile db u f ct b uuid = Commit db' → is_Some (loaded db u).
Proof.
  unfold_files.
  destruct (UserFileBucket db !! u) as [v|]; simpl; [|by eauto].
  destruct (json.Unmarshal v) as [[[m|]]|]; simpl; by eauto.
Qed.

(** [DeleteFile] either leaves the database alone or removes one entry and
    its blob. *)
Lemma DeleteFile_cases db u f :
  (descriptor db u f = None ∧ after db (DeleteFile db u f) = db) ∨
  (∃ m fm, loaded db u = Some m ∧ m !! f = Some fm ∧
           is_Some (UserFileBucket db !! u) ∧
           DeleteFile db u f =
             Commit {| UserFileBucket :=
                         <[u := json.Marshal {| Files := Some (delete f m) |}]>
                           (UserFileBucket db);
                       FileBucket := delete (ID fm) (FileBucket db) |}).
Proof.
  destruct (descriptor db u f) as [fm|] eqn:Hd.
  - right. unfold descriptor in Hd.
    destruct (loaded db u) as [m|] eqn:Hm; simplify_eq/=.
    assert (is_Some (UserFileBucket db !! u)) as Hsome.
    { unfold loaded in Hm. destruct (UserFileBucket db !! u); [done|].
      simplify_eq; by rewrite lookup_empty in Hd. }
    exists m, fm. repeat split; try done.
    by apply DeleteFile_present.
  - left. split; [done|]. by apply DeleteFile_missing.
Qed.








(** X1. A record that does not decode: [GetFile] reports the file absent,
    [PutFile] and [DeleteFile] return the decoding error, and neither
    changes the database. *)
Theorem corrupt_record_operations db u f ct b uuid v :
  UserFileBucket db !! u = Some v →
  json.Unmarshal v = None →
  GetFile db u f = (None, "", false) ∧
  PutFile db u f ct b uuid = Rollback json_error ∧
  DeleteFile db u f = Rollback json_error.
Proof. intros Hv Hbad. unfold_files. by rewrite Hv, Hbad. Qed.

(** X2. A record that decodes to a nil map: [PutFile] panics on the
    assignment, whatever the name, while the readers and [DeleteFile] find
    no file. *)
Theorem nil_map_operations db u f ct b uuid v :
  UserFileBucket db !! u = Some v →
  json.Unmarshal v = Some {| Files := None |} →
  PutFile db u f ct b uuid = Panic ∧
  ListFilenames db u = [] ∧
  GetFile db u f = (None, "", false) ∧
  DeleteFile db u f = Rollback (errors_New "file not found").
Proof. intros Hv Hnil. unfold_files. by rewrite Hv, Hnil. Qed.


(** X8. [DeleteFile] of [(u, f)] does not disturb any other file. *)
Theorem DeleteFile_frame db u f u' f' :
  referential_integrity db →
  ¬ (u' = u ∧ f' = f) →
  GetFile (after db (DeleteFile db u f)) u' f' = GetFile db u' f'.
Proof.
  intros [_ Hun] Hne. rewrite !GetFile_descriptor.
  rewrite descriptor_after_DeleteFile, decide_False by done.
  destruct (descriptor db u' f') as [fm'|] eqn:Hd; [|done].
  rewrite FileBucket_after_DeleteFile.
  destruct (descriptor db u f) as [fm|] eqn:Hf; [|done].
  rewrite lookup_delete_ne; [done|]. intros Hid. destruct Hne. symmetry in Hid.
  by eapply Hun.
Qed.

(** X10. After [DeleteFile] of [(u, f)], however it ended, the listing of
    [u] holds the names it held before other than [f]. *)
Theorem ListFilenames_after_DeleteFile db u f f' :
  f' ∈ ListFilenames (after db (DeleteFile db u f)) u ↔
  f' ≠ f ∧ f' ∈ ListFilenames db u.
Proof.
  rewrite !elem_of_ListFilenames, descriptor_after_DeleteFile.
  case_decide as Hc.
  - destruct Hc as [_ ->]. split; [by intros [? ?]|by intros [? _]].
  - split; [|by intros [_ ?]]. intros Hsome. split; [|done].
    intros ->. by destruct Hc.
Qed.

(** X11. The listing and [GetFile] agree: a name is listed for [u] exactly
    when [GetFile] reports it present, and no name is listed twice. *)
Theorem ListFilenames_GetFile_agree db u f :
  (f ∈ ListFilenames db u ↔ (GetFile db u f).2 = true) ∧
  NoDup (ListFilenames db u).
Proof.
  split; [|apply NoDup_ListFilenames].
  rewrite elem_of_ListFilenames, GetFile_descriptor.
  destruct (descriptor db u f); simpl; split; try done.
Qed.

(** X12. Deleting twice: once [DeleteFile] has removed [f] the user's record
    stays behind, so the same call again returns "file not found", where for
    a user who never had a record it returns nil. *)
Theorem DeleteFile_twice db u f fm :
  descriptor db u f = Some fm →
  ∃ db', DeleteFile db u f = Commit db' ∧
         is_Some (UserFileBucket db' !! u) ∧
         DeleteFile db' u f = Rollback (errors_New "file not found").
Proof.
  intros Hd.
  destruct (DeleteFile_cases db u f) as [[Hnone _]|(m & fm' & Hm & Hf & _ & Hdel)];
    [congruence|].
  rewrite Hdel. eexists. split; [done|]. simpl. split.
  - by rewrite lookup_insert_eq.
  - unfold DeleteFile, bolt.Get. simpl.
    rewrite lookup_insert_eq, json.Unmarshal_Marshal. simpl.
    by rewrite lookup_delete_eq.
Qed.

(** X14. No call removes a user's record: once [UserFileBucket] has a value
    for [u] it has one after every further call. *)
Theorem step_keeps_records db c db' u :
  step db c db' →
  is_Some (UserFileBucket db !! u) →
  is_Some (UserFileBucket db' !! u).
Proof.
  intros Hstep Hsome. destruct Hstep as [| |db u0 f ct b uuid _|db u0 f]; try done.
  - destruct (loaded db u0) as [m|] eqn:Hm; [|by rewrite PutFile_not_loaded].
    rewrite (PutFile_loaded _ _ _ _ _ _ _ Hm). simpl.
    apply lookup_insert_is_Some'. by right.
  - destruct (DeleteFile_cases db u0 f) as [[_ ->]|(m & fm & _ & _ & _ & ->)]; [done|].
    simpl. apply lookup_insert_is_Some'. by right.
Qed.

End operations.

(** ** Properties of package [auth] *)

Section auth_properties.
Context `{!auth.Imports}.
Implicit Types (db : auth.DB) (user : auth.User) (uuid : string).

Lemma CreateUser_Commit db user uuid db' user' :
  auth.CreateUser db user uuid = Commit (db', user') →
  auth.UserBucket db !! auth.Username user = None ∧
  user' = {| auth.ID := uuid;
             auth.Username := auth.Username user;
             auth.Password := auth.hashPassword (auth.Password user) |} ∧
  db' = {| auth.UserBucket :=
             <[auth.Username user := auth.MarshalUser user']> (auth.UserBucket db);
           auth.TokenBucket := auth.TokenBucket db |}.
Proof.
  unfold auth.CreateUser, bolt.Get, bolt.Put.
  repeat case_match; try done. by intros [= <- <-].
Qed.

Lemma Login_Commit db user uuid now db' accessToken :
  auth.Login db user uuid now = Commit (db', accessToken) →
  ∃ v dbUser,
    auth.UserBucket db !! auth.Username user = Some v ∧
    auth.UnmarshalUser v = Some dbUser ∧
    auth.Password dbUser = auth.hashPassword (auth.Password user) ∧
    accessToken = uuid ∧
    db' = {| auth.UserBucket := auth.UserBucket db;
             auth.TokenBucket :=
               <[uuid := auth.MarshalToken {| auth.AccessToken := uuid;
                                              auth.UserID := auth.ID dbUser;
                                              auth.Created := now |}]>
                 (auth.TokenBucket db) |}.
Proof.
  unfold auth.Login, bolt.Get, bolt.Put.
  destruct (auth.UserBucket db !! auth.Username user) as [v|]; [|done].
  destruct (auth.UnmarshalUser v) as [dbUser|] eqn:Hu; [|done].
  case_decide as Hpw; [done|]. intros [= <- <-].
  by exists v, dbUser.
Qed.

(** X15. [CreateUser] commits exactly when the user name has 3 to 20
    characters, all of them letters or digits, the password has at least 8,
    and no user is stored under the name. *)
Theorem CreateUser_commits_iff db user uuid :
  (∃ db' user', auth.CreateUser db user uuid = Commit (db', user')) ↔
  3 ≤ String.length (auth.Username user) ≤ 20 ∧
  auth.invalidChars (auth.Username user) = false ∧
  8 ≤ String.length (auth.Password user) ∧
  auth.UserBucket db !! auth.Username user = None.
Proof.
  unfold auth.CreateUser, bolt.Get. split.
  - intros (db' & user' & Hc). revert Hc.
    destruct (String.length (auth.Username user) <? 3) eqn:H3; [done|].
    destruct (20 <? String.length (auth.Username user)) eqn:H20; [done|].
    destruct (auth.invalidChars (auth.Username user)) eqn:Hinv; [done|]. simpl.
    destruct (String.length (auth.Password user) <? 8) eqn:H8; [done|].
    destruct (auth.UserBucket db !! auth.Username user); [done|]. intros _.
    apply Nat.ltb_ge in H3, H20, H8. done.
  - intros ([H3 H20] & -> & H8 & ->).
    apply Nat.ltb_ge in H3, H20, H8. rewrite H3, H20, H8. simpl. eauto.
Qed.

(** X16. A committed [CreateUser] stores, under the user name, a [User]
    with the drawn identifier, whatever identifier the caller supplied, and
    with the hashed password in place of the given one; it hands the same
    [User] back, and touches no other user and no token. *)
Theorem CreateUser_stores db user uuid db' user' :
  auth.CreateUser db user uuid = Commit (db', user') →
  user' = {| auth.ID := uuid;
             auth.Username := auth.Username user;
             auth.Password := auth.hashPassword (auth.Password user) |} ∧
  auth.UserBucket db' !! auth.Username user ≫= auth.UnmarshalUser = Some user' ∧
  (∀ name, name ≠ auth.Username user →
           auth.UserBucket db' !! name = auth.UserBucket db !! name) ∧
  auth.TokenBucket db' = auth.TokenBucket db.
Proof.
  intros (_ & Hu & ->)%CreateUser_Commit. simpl. split; [done|]. split.
  - rewrite lookup_insert_eq. simpl. apply auth.UnmarshalUser_MarshalUser.
  - split; [|done]. intros name Hne. by rewrite lookup_insert_ne.
Qed.

(** X17. Register, log in, validate: after a committed [CreateUser], [Login]
    with the same user name and password commits with the drawn token, and
    [ValidateToken] of that token, when it is not the empty string, returns
    the identifier [CreateUser] drew. *)
Theorem CreateUser_Login_ValidateToken db user uuid db1 user1 user2 token now :
  auth.CreateUser db user uuid = Commit (db1, user1) →
  auth.Username user2 = auth.Username user →
  auth.Password user2 = auth.Password user →
  token ≠ "" →
  ∃ db2, auth.Login db1 user2 token now = Commit (db2, token) ∧
         auth.ValidateToken db2 token = Commit uuid.
Proof.
  intros (_ & -> & ->)%CreateUser_Commit Hname Hpw Htok.
  unfold auth.Login, auth.ValidateToken, bolt.Get, bolt.Put. simpl.
  rewrite Hname, Hpw, lookup_insert_eq, auth.UnmarshalUser_MarshalUser. simpl.
  rewrite decide_False by (by intros ?).
  eexists. split; [done|]. simpl.
  rewrite decide_False by done.
  by rewrite lookup_insert_eq, auth.UnmarshalToken_MarshalToken.
Qed.

(** X18. [Login] commits exactly when a user is stored under the name, the
    record decodes, and the stored password is the hash of the one offered.
    An unknown user and a wrong password give the same error. *)
Theorem Login_commits_iff db user uuid now :
  ((∃ db', auth.Login db user uuid now = Commit (db', uuid)) ↔
   ∃ v dbUser, auth.UserBucket db !! auth.Username user = Some v ∧
               auth.UnmarshalUser v = Some dbUser ∧
               auth.Password dbUser = auth.hashPassword (auth.Password user)) ∧
  (auth.UserBucket db !! auth.Username user = None →
   auth.Login db user uuid now = Rollback (errors_New "authentication failed")) ∧
  (∀ v dbUser, auth.UserBucket db !! auth.Username user = Some v →
               auth.UnmarshalUser v = Some dbUser →
               auth.Password dbUser ≠ auth.hashPassword (auth.Password user) →
               auth.Login db user uuid now = Rollback (errors_New "authentication failed")).
Proof.
  split; [split|split].
  - intros [db' (v & dbUser & Hv & Hu & Hpw & _)%Login_Commit]. eauto.
  - intros (v & dbUser & Hv & Hu & Hpw).
    unfold auth.Login, bolt.Get. rewrite Hv, Hu.
    rewrite decide_False by (by intros ?). eauto.
  - intros Hv. unfold auth.Login, bolt.Get. by rewrite Hv.
  - intros v dbUser Hv Hu Hpw. unfold auth.Login, bolt.Get.
    by rewrite Hv, Hu, decide_True.
Qed.

(** X19. Nothing is ever taken back: along [CreateUser] and [Login] a stored
    user record stays as it is, so a user keeps the identifier and the
    password hash first stored, and a stored token stays valid for the same
    user identifier. *)
Theorem auth_step_keeps db db' :
  auth.step db db' →
  (∀ name v, auth.UserBucket db !! name = Some v →
             auth.UserBucket db' !! name = Some v) ∧
  (∀ token userID, auth.ValidateToken db token = Commit userID →
                   auth.ValidateToken db' token = Commit userID).
Proof.
  intros [db0 user uuid db1 user1 Hc|db0 user uuid now db1 Hfresh Hl].
  - apply CreateUser_Commit in Hc as (Hnone & _ & ->). simpl. split.
    + intros name v Hv. rewrite lookup_insert_ne; [done|]. by intros <-; congruence.
    + done.
  - apply Login_Commit in Hl as (v & dbUser & _ & _ & _ & _ & ->). split; [done|].
    intros token userID. unfold auth.ValidateToken, bolt.Get. simpl.
    case_decide; [done|].
    destruct (decide (uuid = token)) as [->|Hne].
    + by rewrite Hfresh.
    + by rewrite lookup_insert_ne.
Qed.

(** X20. On a users' database reached from the initial one, a token that
    validates names the identifier of a stored user. *)
Theorem reachable_token_names_user db token userID :
  rtc auth.step auth.init db →
  auth.ValidateToken db token = Commit userID →
  ∃ name v user, auth.UserBucket db !! name = Some v ∧
                 auth.UnmarshalUser v = Some user ∧
                 auth.ID user = userID.
Proof.
  intros Hreach. revert token userID.
  pattern db. revert db Hreach. apply rtc_ind_r.
  - intros token userID. unfold auth.ValidateToken, bolt.Get. simpl.
    case_decide; [done|]. by rewrite lookup_empty.
  - intros dbm db Hm Hstep IH token userID.
    inversion Hstep as [db0 user uuid db1 user1 Hc|db0 user uuid now db1 Hfresh Hl]; subst.
    + apply CreateUser_Commit in Hc as (Hnone & _ & ->).
      unfold auth.ValidateToken at 1. simpl. intros Hval.
      destruct (IH token userID Hval) as (name & v & u0 & Hv & Hu & Hid).
      exists name, v, u0. split; [|done]. simpl.
      rewrite lookup_insert_ne; [done|]. by intros <-; congruence.
    + apply Login_Commit in Hl as (v & dbUser & Hv & Hu & _ & _ & ->).
      unfold auth.ValidateToken, bolt.Get. simpl.
      case_decide; [done|].
      destruct (decide (uuid = token)) as [->|Hne].
      * rewrite lookup_insert_eq, auth.UnmarshalToken_MarshalToken. simpl.
        intros [= <-]. by exists (auth.Username user), v, dbUser.
      * rewrite lookup_insert_ne by done. intros Hval.
        apply (IH token userID). unfold auth.ValidateToken, bolt.Get.
        by rewrite decide_False.
Qed.

End auth_properties.

(** ** Properties of the handlers *)

Section handler_properties.
Context `{!json.Codec} `{!auth.Imports}.
Implicit Types (db : DB) (adb : auth.DB) (r : Request) (w : ResponseRecorder).
Implicit Types (u path uuid : string).

Lemma PutFile_Commit_GetFile db u f ct b uuid db' :
  PutFile db u f ct b uuid = Commit db' → GetFile db' u f = (Some b, ct, true).
Proof.
  intros Hput. destruct (PutFile_Commit_loaded _ _ _ _ _ _ _ Hput) as [m Hm].
  assert (db' = after db (PutFile db u f ct b uuid)) as -> by by rewrite Hput.
  rewrite GetFile_descriptor.
  rewrite (descriptor_after_PutFile _ _ _ _ _ _ _ _ _ Hm), decide_True by done.
  by rewrite (FileBucket_after_PutFile _ _ _ _ _ _ _ Hm), lookup_insert_eq.
Qed.

(** What [doFilesPut] checked when it went as far as [PutFile]. *)
Lemma doFilesPut_cases db u path r uuid :
  (∃ msg code, (code = StatusBadRequest ∨ code = StatusInternalServerError) ∧
               doFilesPut db u path r uuid = Wrote db (jsonErrorResponse code msg)) ∨
  (∃ bodyBytes,
     ReadAll_LimitReader (Body r) MAX_FILE_UPLOAD = Some bodyBytes ∧
     strconv.Atoi (Header_Get r "Content-Length") = Some (len bodyBytes) ∧
     (0 < len bodyBytes ≤ MAX_FILE_UPLOAD)%Z ∧
     CloseErr (Body r) = false ∧
     doFilesPut db u path r uuid =
       match PutFile db u path (Header_Get r "Content-Type") bodyBytes uuid with
       | Commit db' => Wrote db' (jsonResponse StatusCreated None)
       | Panic => Panicked
       | Rollback _ => Wrote db (jsonErrorResponse StatusBadRequest "Failed saving file")
       end).
Proof.
  unfold doFilesPut.
  destruct (strconv.Atoi (Header_Get r "Content-Length")) as [n|]; [|left; eauto 10].
  case_decide as Hzero; [left; eauto 10|].
  case_decide as Hmax; [left; eauto 10|].
  destruct (ReadAll_LimitReader (Body r) MAX_FILE_UPLOAD) as [bodyBytes|];
    [|left; eauto 10].
  destruct (CloseErr (Body r)); [left; eauto 10|].
  case_decide as Hlen; [left; eauto 10|].
  subst n.
  right. exists bodyBytes.
  split; [done|]. split; [done|]. split; [unfold len in *; lia|]. split; [done|].
  by destruct (PutFile db u path (Header_Get r "Content-Type") bodyBytes uuid).
Qed.

(** X22. An upload that is not answered with 201 leaves the database as it
    was and answers 400 or 500 with a JSON error message. *)
Theorem doFilesPut_rejected db u path r uuid db' w :
  doFilesPut db u path r uuid = Wrote db' w →
  Code w ≠ StatusCreated →
  db' = db ∧
  (Code w = StatusBadRequest ∨ Code w = StatusInternalServerError) ∧
  ∃ msg, Written w = Encoded (ErrorResponse msg).
Proof.
  intros Hput Hcode.
  destruct (doFilesPut_cases db u path r uuid)
    as [(msg & code & Hc & Heq)|(bodyBytes & _ & _ & _ & _ & Heq)].
  - rewrite Heq in Hput. simplify_eq. simpl. eauto.
  - rewrite Heq in Hput.
    destruct (PutFile db u path (Header_Get r "Content-Type") bodyBytes uuid);
      simplify_eq; try (by destruct Hcode); simpl; eauto.
Qed.

(** A request to [/files] leaves each blob as it was, removes it, or stores
    one of accepted size. *)
Lemma doFiles_FileBucket adb db r uuid db' w fileID blob :
  doFiles adb db r uuid = Wrote db' w →
  FileBucket db' !! fileID = Some blob →
  FileBucket db !! fileID = Some blob ∨ (0 < len blob ≤ MAX_FILE_UPLOAD)%Z.
Proof.
  unfold doFiles.
  destruct (auth.ValidateToken adb (Header_Get r "X-Session")) as [userID| |];
    [|by intros [= <- _]; left..].
  set (path := match URL_Path r with EmptyString => URL_Path r | String _ rest => rest end).
  repeat case_decide.
  - unfold doFilesList. intros [= <- _]. by left.
  - unfold doFilesGet. destruct (GetFile db userID path) as [[? ?] []];
      intros [= <- _]; by left.
  - intros Hput Hblob.
    destruct (doFilesPut_cases db userID path r uuid)
      as [(msg & code & Hc & Heq)|(bodyBytes & _ & _ & Hb & _ & Heq)].
    + rewrite Heq in Hput. simplify_eq. by left.
    + rewrite Heq in Hput.
      destruct (PutFile db userID path (Header_Get r "Content-Type") bodyBytes uuid)
        as [db1| |] eqn:Hp; simplify_eq; try (by left).
      destruct (PutFile_Commit_loaded _ _ _ _ _ _ _ Hp) as [m Hm].
      rewrite (PutFile_loaded _ _ _ _ _ _ _ Hm) in Hp. simplify_eq. simpl in Hblob.
      apply lookup_insert_Some in Hblob as [[_ <-]|[_ Hold]]; [by right|by left].
  - unfold doFilesDelete. intros Hdel Hblob.
    pose proof (FileBucket_after_DeleteFile db userID path) as Hfb.
    destruct (DeleteFile db userID path) as [db1| |]; simplify_eq; [|by left].
    simpl in Hfb. rewrite Hfb in Hblob.
    destruct (descriptor db userID path); [|by left].
    apply lookup_delete_Some in Hblob as [_ ?]. by left.
  - intros [= <- _]. by left.
Qed.

(** X23. However the users' database changes between requests, no request
    to [/files] ever stores an empty blob or one longer than 1048576 bytes. *)
Theorem served_blob_size db fileID blob :
  served db →
  FileBucket db !! fileID = Some blob →
  (0 < len blob ≤ MAX_FILE_UPLOAD)%Z.
Proof.
  intros Hserved. revert fileID blob.
  induction Hserved as [|adb db r uuid db' w _ IH Hdo]; intros fileID blob Hblob.
  - simpl in Hblob. by rewrite lookup_empty in Hblob.
  - destruct (doFiles_FileBucket _ _ _ _ _ _ _ _ Hdo Hblob) as [Hold|Hnew]; [|done].
    by eapply IH.
Qed.

(** X24. Deleting over HTTP: a stored file is deleted with 204; the same
    request again is answered 404 with "file not found", and so is a
    download of the path.  For a user with no record the answer is 204. *)
Theorem doFilesDelete_twice db u path fm :
  descriptor db u path = Some fm →
  ∃ db1, doFilesDelete db u path = Wrote db1 (jsonResponse StatusNoContent None) ∧
         doFilesDelete db1 u path =
           Wrote db1 (jsonErrorResponse StatusNotFound "file not found") ∧
         doFilesGet db1 u path = Wrote db1 (jsonResponse StatusNotFound None) ∧
         ∀ u', UserFileBucket db1 !! u' = None →
               doFilesDelete db1 u' path = Wrote db1 (jsonResponse StatusNoContent None).
Proof.
  intros Hd.
  destruct (DeleteFile_cases db u path) as [[Hnone _]|(m & fm' & Hm & Hf & _ & Hdel)];
    [congruence|].
  pose proof (descriptor_after_DeleteFile db u path u path) as Hd1.
  rewrite decide_True in Hd1 by done.
  unfold doFilesDelete at 1. rewrite Hdel in *. simpl in Hd1.
  eexists. split; [done|]. split; [|split].
  - unfold doFilesDelete, DeleteFile, bolt.Get. simpl.
    rewrite lookup_insert_eq, json.Unmarshal_Marshal. simpl.
    by rewrite lookup_delete_eq.
  - unfold doFilesGet. by rewrite GetFile_descriptor, Hd1.
  - intros u' Hnone. unfold doFilesDelete. by rewrite DeleteFile_absent.
Qed.

(** X25. Without a session there is no access: when [ValidateToken] returns
    an error, as it does for a request with no [X-Session] header, [doFiles]
    answers 403 with no body and leaves the database alone, whatever the
    method and the path. *)
Theorem doFiles_forbidden adb db r uuid :
  (returned (auth.ValidateToken adb (Header_Get r "X-Session")) ≠ None →
   doFiles adb db r uuid =
     Wrote db {| Code := StatusForbidden; HeaderMap := ∅; Written := Raw [] |}) ∧
  (Header r !! "X-Session" = None →
   doFiles adb db r uuid =
     Wrote db {| Code := StatusForbidden; HeaderMap := ∅; Written := Raw [] |}).
Proof.
  split.
  - unfold doFiles.
    by destruct (auth.ValidateToken adb (Header_Get r "X-Session")).
  - intros Hnone. unfold doFiles, Header_Get. by rewrite Hnone.
Qed.

(** X26. A request acts on the files of the session's user only: the index
    record of every other user is the same after the request. *)
Theorem doFiles_other_users adb db r uuid userID db' w u' :
  auth.ValidateToken adb (Header_Get r "X-Session") = Commit userID →
  doFiles adb db r uuid = Wrote db' w →
  u' ≠ userID →
  UserFileBucket db' !! u' = UserFileBucket db !! u'.
Proof.
  intros Hval Hdo Hne. unfold doFiles in Hdo. rewrite Hval in Hdo.
  set (path := match URL_Path r with EmptyString => URL_Path r | String _ rest => rest end)
    in Hdo.
  repeat case_decide.
  - unfold doFilesList in Hdo. by simplify_eq.
  - unfold doFilesGet in Hdo.
    destruct (GetFile db userID path) as [[? ?] []]; by simplify_eq.
  - destruct (doFilesPut_cases db userID path r uuid)
      as [(msg & code & Hc & Heq)|(bodyBytes & _ & _ & _ & _ & Heq)].
    + rewrite Heq in Hdo. by simplify_eq.
    + rewrite Heq in Hdo.
      pose proof (UserFileBucket_after_PutFile_ne db userID path
                    (Header_Get r "Content-Type") bodyBytes uuid u') as Hframe.
      destruct (PutFile db userID path (Header_Get r "Content-Type") bodyBytes uuid);
        simplify_eq; [|done].
      apply Hframe. by intros <-.
  - unfold doFilesDelete in Hdo.
    destruct (DeleteFile_cases db userID path)
      as [[_ Hsame]|(m & fm & _ & _ & _ & Hdel)].
    + destruct (DeleteFile db userID path); simplify_eq/=; done.
    + rewrite Hdel in Hdo. simplify_eq. simpl.
      rewrite lookup_insert_ne; [done|]. by intros <-.
  - by simplify_eq.
Qed.

(** X27. Only PUT and DELETE write: a request with any other method is
    answered, never panics, and leaves the database as it was. *)
Theorem doFiles_read_only adb db r uuid :
  Method r ≠ "PUT" →
  Method r ≠ "DELETE" →
  ∃ w, doFiles adb db r uuid = Wrote db w.
Proof.
  intros Hput Hdel. unfold doFiles.
  destruct (auth.ValidateToken adb (Header_Get r "X-Session")) as [userID| |];
    [|by eauto..].
  set (path := match URL_Path r with EmptyString => URL_Path r | String _ rest => rest end).
  repeat case_decide; try done.
  - unfold doFilesList. eauto.
  - unfold doFilesGet. destruct (GetFile db userID path) as [[? ?] []]; eauto.
  - eauto.
Qed.

(** X28. From login to listing: the token of a committed [Login], when it is
    not the empty string, makes [doFiles] answer a GET of [/files/] with the
    file names of the user who logged in, and a GET of a longer path with
    that user's file. *)
Theorem Login_doFiles adb user token now adb' v dbUser db r uuid c path :
  auth.UserBucket adb !! auth.Username user = Some v →
  auth.UnmarshalUser v = Some dbUser →
  auth.Login adb user token now = Commit (adb', token) →
  token ≠ "" →
  Header r !! "X-Session" = Some token →
  Method r = "GET" →
  URL_Path r = String c path →
  doFiles adb' db r uuid =
    if decide (path = "") then doFilesList db (auth.ID dbUser)
    else doFilesGet db (auth.ID dbUser) path.
Proof.
  intros Hv Hu (v' & dbUser' & Hv' & Hu' & _ & _ & ->)%Login_Commit Htok Hsess Hget Hpath.
  simplify_eq.
  unfold doFiles, Header_Get. rewrite Hsess, Hpath, Hget. simpl.
  unfold auth.ValidateToken, bolt.Get. simpl.
  rewrite decide_False by done.
  by rewrite lookup_insert_eq, auth.UnmarshalToken_MarshalToken.
Qed.

End handler_properties.

(** ** The further properties on the example databases *)

Section more_examples.
#[local] Existing Instance reference_codec.
#[local] Existing Instance reference_imports.


Lemma db_bob_PutFile_b_txt :
  PutFile db_bob "bob" "b.txt" "text/html" [x61] "id-2" =
  Commit (after db_bob (PutFile db_bob "bob" "b.txt" "text/html" [x61] "id-2")).
Proof. vm_compute. reflexivity. Qed.

Lemma CreateUser_bob : auth.CreateUser auth.init bob_request "u-1" = Commit (adb_bob, bob_stored).
Proof. reflexivity. Qed.

Lemma Login_bob : auth.Login adb_bob bob_request "t-1" 7 = Commit (adb_login, "t-1").
Proof. vm_compute. reflexivity. Qed.

Lemma ValidateToken_bob : auth.ValidateToken adb_login "t-1" = Commit "u-1".
Proof. vm_compute. reflexivity. Qed.

Lemma doFiles_put_a_txt :
  doFiles adb_login init put_a_txt "id-1" = Wrote db_u1 (jsonResponse StatusCreated None).
Proof. vm_compute. reflexivity. Qed.

Lemma corrupt_record_operations_witness :
  GetFile db_corrupt "bob" "a.txt" = (None, "", false) ∧
  PutFile db_corrupt "bob" "a.txt" "text/plain" [x68; x69] "id-2" = Rollback json_error ∧
  DeleteFile db_corrupt "bob" "a.txt" = Rollback json_error.
Proof.
  apply (corrupt_record_operations db_corrupt "bob" "a.txt" "text/plain" [x68; x69] "id-2" [x02]);
    reflexivity.
Defined.

Lemma nil_map_operations_witness :
  PutFile db_nil "bob" "a.txt" "text/plain" [x68; x69] "id-2" = Panic ∧
  ListFilenames db_nil "bob" = [] ∧
  GetFile db_nil "bob" "a.txt" = (None, "", false) ∧
  DeleteFile db_nil "bob" "a.txt" = Rollback (errors_New "file not found").
Proof.
  apply (nil_map_operations db_nil "bob" "a.txt" "text/plain" [x68; x69] "id-2"
           (json.Marshal {| Files := None |})).
  - reflexivity.
  - vm_compute. reflexivity.
Defined.


Lemma DeleteFile_frame_witness :
  let db1 := after db_bob (PutFile db_bob "bob" "b.txt" "text/html" [x61] "id-2") in
  GetFile (after db1 (DeleteFile db1 "bob" "b.txt")) "bob" "a.txt" = GetFile db1 "bob" "a.txt".
Proof.
  apply (DeleteFile_frame
           (after db_bob (PutFile db_bob "bob" "b.txt" "text/html" [x61] "id-2"))
           "bob" "b.txt" "bob" "a.txt").
  - apply PutFile_referential_integrity;
      [exact db_bob_referential_integrity|reflexivity].
  - intros [_ Hf]. discriminate Hf.
Defined.

Lemma DeleteFile_twice_witness :
  ∃ db', DeleteFile db_bob "bob" "a.txt" = Commit db' ∧
         is_Some (UserFileBucket db' !! "bob") ∧
         DeleteFile db' "bob" "a.txt" = Rollback (errors_New "file not found").
Proof.
  apply (DeleteFile_twice db_bob "bob" "a.txt" a_txt). exact db_bob_descriptor.
Defined.

Lemma step_keeps_records_witness :
  is_Some (UserFileBucket (after db_bob (DeleteFile db_bob "bob" "a.txt")) !! "bob").
Proof.
  apply (step_keeps_records db_bob (Delete "bob" "a.txt")
           (after db_bob (DeleteFile db_bob "bob" "a.txt")) "bob").
  - apply step_Delete.
  - exists (json.Marshal bob_index). reflexivity.
Defined.

Lemma CreateUser_stores_witness :
  bob_stored = {| auth.ID := "u-1";
                  auth.Username := "Bob";
                  auth.Password := auth.hashPassword "B1234567" |} ∧
  auth.UserBucket adb_bob !! "Bob" ≫= auth.UnmarshalUser = Some bob_stored ∧
  (∀ name, name ≠ "Bob" →
           auth.UserBucket adb_bob !! name = auth.UserBucket auth.init !! name) ∧
  auth.TokenBucket adb_bob = auth.TokenBucket auth.init.
Proof.
  apply (CreateUser_stores auth.init bob_request "u-1" adb_bob bob_stored).
  exact CreateUser_bob.
Defined.

Lemma CreateUser_Login_ValidateToken_witness :
  ∃ db2, auth.Login adb_bob bob_request "t-1" 7 = Commit (db2, "t-1") ∧
         auth.ValidateToken db2 "t-1" = Commit "u-1".
Proof.
  apply (CreateUser_Login_ValidateToken auth.init bob_request "u-1" adb_bob bob_stored
           bob_request "t-1" 7).
  - exact CreateUser_bob.
  - reflexivity.
  - reflexivity.
  - discriminate.
Defined.

Lemma auth_step_keeps_witness :
  (∀ name v, auth.UserBucket adb_bob !! name = Some v →
             auth.UserBucket adb_login !! name = Some v) ∧
  (∀ token userID, auth.ValidateToken adb_bob token = Commit userID →
                   auth.ValidateToken adb_login token = Commit userID).
Proof.
  apply (auth_step_keeps adb_bob adb_login).
  apply (auth.step_Login adb_bob bob_request "t-1" 7 adb_login).
  - reflexivity.
  - exact Login_bob.
Defined.

Lemma reachable_token_names_user_witness :
  ∃ name v user, auth.UserBucket adb_login !! name = Some v ∧
                 auth.UnmarshalUser v = Some user ∧
                 auth.ID user = "u-1".
Proof.
  apply (reachable_token_names_user adb_login "t-1" "u-1").
  - eapply rtc_l; [exact (auth.step_CreateUser _ _ _ _ _ CreateUser_bob)|].
    eapply rtc_l; [|apply rtc_refl].
    apply (auth.step_Login adb_bob bob_request "t-1" 7 adb_login);
      [reflexivity|exact Login_bob].
  - exact ValidateToken_bob.
Defined.

Lemma doFilesPut_rejected_witness :
  let w := jsonErrorResponse StatusBadRequest "Content-Length does not match uploaded file" in
  init = init ∧
  (Code w = StatusBadRequest ∨ Code w = StatusInternalServerError) ∧
  ∃ msg, Written w = Encoded (ErrorResponse msg).
Proof.
  apply (doFilesPut_rejected init "bob" "a.txt" put_a_txt_3 "id-1" init).
  - vm_compute. reflexivity.
  - discriminate.
Defined.

Lemma served_blob_size_witness : (0 < len [x68; x69] ≤ MAX_FILE_UPLOAD)%Z.
Proof.
  apply (served_blob_size db_u1 "id-1" [x68; x69]).
  - eapply served_doFiles; [apply served_init|exact doFiles_put_a_txt].
  - reflexivity.
Defined.

Lemma doFilesDelete_twice_witness :
  ∃ db1, doFilesDelete db_bob "bob" "a.txt" = Wrote db1 (jsonResponse StatusNoContent None) ∧
         doFilesDelete db1 "bob" "a.txt" =
           Wrote db1 (jsonErrorResponse StatusNotFound "file not found") ∧
         doFilesGet db1 "bob" "a.txt" = Wrote db1 (jsonResponse StatusNotFound None) ∧
         ∀ u', UserFileBucket db1 !! u' = None →
               doFilesDelete db1 u' "a.txt" = Wrote db1 (jsonResponse StatusNoContent None).
Proof.
  apply (doFilesDelete_twice db_bob "bob" "a.txt" a_txt). exact db_bob_descriptor.
Defined.

Lemma doFiles_other_users_witness :
  UserFileBucket db_u1 !! "bob" = UserFileBucket init !! "bob".
Proof.
  apply (doFiles_other_users adb_login init put_a_txt "id-1" "u-1" db_u1
           (jsonResponse StatusCreated None) "bob").
  - exact ValidateToken_bob.
  - exact doFiles_put_a_txt.
  - discriminate.
Defined.

Lemma doFiles_read_only_witness :
  ∃ w, doFiles adb_login db_u1 get_root "id-2" = Wrote db_u1 w.
Proof.
  apply (doFiles_read_only adb_login db_u1 get_root "id-2"); discriminate.
Defined.

Lemma Login_doFiles_witness :
  doFiles adb_login db_u1 get_root "id-2" =
    if decide ("" = "") then doFilesList db_u1 "u-1" else doFilesGet db_u1 "u-1" "".
Proof.
  eapply (Login_doFiles adb_bob bob_request "t-1" 7 adb_login
            (auth.MarshalUser bob_stored) bob_stored db_u1 get_root "id-2" _ "").
  - reflexivity.
  - vm_compute. reflexivity.
  - exact Login_bob.
  - discriminate.
  - reflexivity.
  - reflexivity.
  - reflexivity.
Defined.

Example doFiles_get_root :
  doFiles adb_login db_u1 get_root "id-2" =
    Wrote db_u1 (jsonResponse StatusOK (Some (Filenames ["a.txt"]))).
Proof. vm_compute. reflexivity. Qed.

End more_examples.

(** * Properties of the operations over the libraries as they are *)

Section strict_properties.
Context `{!strict.Codec}.
Implicit Types (db : DB) (u f ct uuid : string) (b : bytes).
Implicit Types (m : gmap string FileMetadata) (fm : FileMetadata).

Ltac unfold_strict :=
  unfold strict.PutFile, strict.DeleteFile, strict.GetFile, strict.GetFile_view,
    strict.ListFilenames, strict.ListFilenames_view, strict.descriptor, strict.loaded,
    strict.bolt.Get, strict.bolt.Delete in *.

Lemma strict_Put_cases key value (bucket : gmap string bytes) :
  (∃ err, strict.bolt.Put key value bucket = inl err ∧ strict.bolt.argument_error err) ∨
  (strict.bolt.Put key value bucket = inr (<[key := value]> bucket)).
Proof.
  unfold strict.bolt.Put, strict.bolt.argument_error.
  repeat case_decide; eauto 10.
Qed.

(** [PutFile] once the user's map is loaded: the two writes, in order. *)
Lemma strict_PutFile_loaded db u f ct b uuid m :
  strict.loaded db u = Some m →
  strict.PutFile db u f ct b uuid =
    match strict.bolt.Put u
            (strict.Marshal {| Files := Some (<[f := stamped (m !! f) ct b uuid]> m) |})
            (UserFileBucket db) with
    | inl err => Rollback err
    | inr userFilesBucket =>
        match strict.bolt.Put (ID (stamped (m !! f) ct b uuid)) b (FileBucket db) with
        | inl err => Rollback err
        | inr filesBucket =>
            Commit {| UserFileBucket := userFilesBucket; FileBucket := filesBucket |}
        end
    end.
Proof.
  unfold_strict. intros Hm.
  destruct (UserFileBucket db !! u) as [v|] eqn:Hv; simpl in *.
  - destruct (strict.Unmarshal v) as [[files]|]; simplify_eq/=.
    by destruct (m !! f).
  - simplify_eq/=. by rewrite lookup_empty.
Qed.

Lemma strict_PutFile_not_loaded db u f ct b uuid :
  strict.loaded db u = None → after db (strict.PutFile db u f ct b uuid) = db.
Proof.
  unfold_strict.
  destruct (UserFileBucket db !! u) as [v|]; simpl; [|done].
  by destruct (strict.Unmarshal v) as [[[files|]]|].
Qed.

Lemma strict_PutFile_Commit db u f ct b uuid db' :
  strict.PutFile db u f ct b uuid = Commit db' →
  ∃ m, strict.loaded db u = Some m ∧
       db' = {| UserFileBucket :=
                  <[u := strict.Marshal
                           {| Files := Some (<[f := stamped (m !! f) ct b uuid]> m) |}]>
                    (UserFileBucket db);
                FileBucket := <[ID (stamped (m !! f) ct b uuid) := b]> (FileBucket db) |}.
Proof.
  intros Hput. destruct (strict.loaded db u) as [m|] eqn:Hm.
  - exists m. split; [done|].
    rewrite (strict_PutFile_loaded _ _ _ _ _ _ _ Hm) in Hput.
    destruct (strict_Put_cases u
                (strict.Marshal {| Files := Some (<[f := stamped (m !! f) ct b uuid]> m) |})
                (UserFileBucket db)) as [(e & He & _)|He]; rewrite He in Hput; [done|].
    destruct (strict_Put_cases (ID (stamped (m !! f) ct b uuid)) b (FileBucket db))
      as [(e & He' & _)|He']; rewrite He' in Hput; [done|].
    by simplify_eq.
  - pose proof (strict_PutFile_not_loaded db u f ct b uuid Hm) as Hsame.
    unfold_strict. revert Hput.
    destruct (UserFileBucket db !! u) as [v|]; simpl in *; [|done].
    by destruct (strict.Unmarshal v) as [[[files|]]|].
Qed.

(** On a loaded map [PutFile] commits or returns an error of [Put]. *)
Lemma strict_PutFile_outcome db u f ct b uuid :
  is_Some (strict.loaded db u) →
  (∃ db', strict.PutFile db u f ct b uuid = Commit db') ∨
  (∃ err, strict.PutFile db u f ct b uuid = Rollback err ∧ strict.bolt.argument_error err).
Proof.
  intros [m Hm]. rewrite (strict_PutFile_loaded _ _ _ _ _ _ _ Hm).
  destruct (strict_Put_cases u
              (strict.Marshal {| Files := Some (<[f := stamped (m !! f) ct b uuid]> m) |})
              (UserFileBucket db)) as [(e & Heq & He)|Heq]; rewrite Heq; [by eauto|].
  destruct (strict_Put_cases (ID (stamped (m !! f) ct b uuid)) b (FileBucket db))
    as [(e & Heq' & He)|Heq']; rewrite Heq'; by eauto.
Qed.

Lemma strict_well_formed_loaded db u :
  strict.well_formed db → ∃ m, strict.loaded db u = Some m ∧ strict.valid_map m.
Proof.
  intros Hwf. unfold strict.loaded.
  destruct (UserFileBucket db !! u) as [v|] eqn:Hv.
  - destruct (Hwf _ _ Hv) as (m & -> & Hvalid). by exists m.
  - exists ∅. split; [done|]. apply map_Forall_empty.
Qed.

Lemma strict_valid_map_insert m f fm :
  strict.valid_map m →
  utf8.Valid f → utf8.Valid (ID fm) → utf8.Valid (ContentType fm) →
  strict.valid_map (<[f := fm]> m).
Proof. intros Hm Hf Hid Hct. by apply map_Forall_insert_2. Qed.

Lemma strict_valid_map_stamped m f ct b uuid :
  strict.valid_map m →
  utf8.Valid f → utf8.Valid ct → utf8.Valid uuid →
  strict.valid_map (<[f := stamped (m !! f) ct b uuid]> m).
Proof.
  intros Hm Hf Hct Huuid. apply strict_valid_map_insert; try done.
  destruct (m !! f) as [old|] eqn:Hold; simpl; [|done].
  by destruct (Hm _ _ Hold) as (_ & ? & _).
Qed.

Lemma strict_loaded_insert_eq u files blobs m :
  strict.valid_map m →
  strict.loaded {| UserFileBucket := <[u := strict.Marshal {| Files := Some m |}]> files;
                   FileBucket := blobs |} u = Some m.
Proof.
  intros Hvalid. unfold strict.loaded. simpl.
  rewrite lookup_insert_eq, strict.Unmarshal_Marshal; [done|].
  by intros m' [= <-].
Qed.

Lemma strict_loaded_insert_ne u u' files blobs v :
  u ≠ u' →
  strict.loaded {| UserFileBucket := <[u := v]> files; FileBucket := blobs |} u' =
  strict.loaded {| UserFileBucket := files; FileBucket := blobs |} u'.
Proof. intros Hne. unfold strict.loaded. simpl. by rewrite lookup_insert_ne. Qed.

Lemma strict_descriptor_lookup db u f m :
  strict.loaded db u = Some m → strict.descriptor db u f = m !! f.
Proof. unfold strict.descriptor. by intros ->. Qed.

(** The descriptors after a committed [PutFile] of valid UTF-8 strings. *)
Lemma strict_descriptor_after_PutFile db u f ct b uuid db' m u' f' :
  strict.valid_map m →
  utf8.Valid f → utf8.Valid ct → utf8.Valid uuid →
  strict.loaded db u = Some m →
  strict.PutFile db u f ct b uuid = Commit db' →
  strict.descriptor db' u' f' =
    if decide (u' = u ∧ f' = f) then Some (stamped (m !! f) ct b uuid)
    else strict.descriptor db u' f'.
Proof.
  intros Hvalid Hf Hct Huuid Hm (m' & Hm' & ->)%strict_PutFile_Commit.
  simplify_eq. unfold strict.descriptor at 1.
  destruct (decide (u = u')) as [<-|Hne].
  - rewrite strict_loaded_insert_eq by by apply strict_valid_map_stamped.
    simpl. unfold strict.descriptor. rewrite Hm. simpl.
    destruct (decide (f' = f)) as [->|Hf'].
    + by rewrite lookup_insert_eq, decide_True.
    + rewrite lookup_insert_ne by done. rewrite decide_False; [done|by intros [_ ?]].
  - rewrite strict_loaded_insert_ne by done.
    rewrite decide_False; [by destruct db|by intros [? _]].
Qed.

Lemma strict_GetFile_descriptor db u f :
  strict.GetFile db u f =
    match strict.descriptor db u f with
    | Some fm => (Some (default [] (FileBucket db !! ID fm)), ContentType fm, true)
    | None => (None, "", false)
    end.
Proof.
  unfold_strict.
  destruct (UserFileBucket db !! u) as [v|]; simpl.
  - destruct (strict.Unmarshal v) as [[files]|]; simpl; [|done].
    by destruct (files ≫= (.!! f)).
  - by rewrite lookup_empty.
Qed.

Lemma strict_ListFilenames_loaded db u :
  strict.ListFilenames db u =
    match strict.loaded db u with
    | Some m => (map_to_list m).*1
    | None => []
    end.
Proof.
  unfold_strict.
  destruct (UserFileBucket db !! u) as [v|]; simpl.
  - destruct (strict.Unmarshal v) as [[[m|]]|]; simpl; try done.
    unfold range_append. by destruct ((map_to_list m).*1).
  - by rewrite map_to_list_empty.
Qed.

Lemma strict_elem_of_ListFilenames db u f :
  f ∈ strict.ListFilenames db u ↔ is_Some (strict.descriptor db u f).
Proof.
  rewrite strict_ListFilenames_loaded. unfold strict.descriptor.
  destruct (strict.loaded db u) as [m|]; simpl.
  - rewrite <-elem_of_dom. rewrite list_elem_of_fmap. split.
    + intros [[k fm] [-> Hin]]. apply elem_of_map_to_list in Hin.
      apply elem_of_dom. eauto.
    + intros [fm Hfm]%elem_of_dom. exists (f, fm). split; [done|].
      by apply elem_of_map_to_list.
  - split; [by intros ?%not_elem_of_nil | by intros [? ?]].
Qed.

Lemma strict_NoDup_ListFilenames db u : NoDup (strict.ListFilenames db u).
Proof.
  rewrite strict_ListFilenames_loaded. destruct (strict.loaded db u) as [m|].
  - apply NoDup_fst_map_to_list.
  - constructor.
Qed.

(** ** The claims that depend on what the libraries accept *)

(** C1, as the code has it.  On a well-formed database, for a file name and
    a content type that are valid UTF-8 and an identifier as [uuid.New]
    draws it, [PutFile] commits or returns one of the argument errors of
    Bolt's [Put]; whenever it commits, [GetFile] of the same user and name
    on the database it leaves returns exactly the bytes and the content type
    and reports the file present. *)
Theorem strict_PutFile_GetFile_roundtrip db u f ct b uuid :
  strict.well_formed db →
  utf8.Valid f → utf8.Valid ct → utf8.Valid uuid →
  ((∃ db', strict.PutFile db u f ct b uuid = Commit db') ∨
   (∃ err, strict.PutFile db u f ct b uuid = Rollback err ∧
           strict.bolt.argument_error err)) ∧
  (∀ db', strict.PutFile db u f ct b uuid = Commit db' →
          strict.GetFile db' u f = (Some b, ct, true)).
Proof.
  intros Hwf Hf Hct Huuid.
  destruct (strict_well_formed_loaded db u Hwf) as (m & Hm & Hvalid).
  split; [apply strict_PutFile_outcome; by eauto|].
  intros db' Hput. rewrite strict_GetFile_descriptor.
  rewrite (strict_descriptor_after_PutFile _ _ _ _ _ _ _ _ _ _ Hvalid Hf Hct Huuid Hm Hput).
  rewrite decide_True by done.
  apply strict_PutFile_Commit in Hput as (m' & Hm' & ->). simplify_eq. simpl.
  by rewrite lookup_insert_eq.
Qed.

(** C4, as the code has it.  On a well-formed database, when [u] already has
    a descriptor for [f] and the new content type is valid UTF-8, [PutFile]
    commits or returns one of the argument errors of Bolt's [Put]; whenever
    it commits it has kept the descriptor's identifier (the identifier drawn
    for the call is not used and the blob is overwritten under the old one)
    and set the content type and length, [GetFile] returns the new bytes and
    type, and [ListFilenames] holds [f] exactly once. *)
Theorem strict_PutFile_overwrite db u f ct2 b2 uuid fm :
  strict.well_formed db →
  utf8.Valid ct2 →
  strict.descriptor db u f = Some fm →
  ((∃ db', strict.PutFile db u f ct2 b2 uuid = Commit db') ∨
   (∃ err, strict.PutFile db u f ct2 b2 uuid = Rollback err ∧
           strict.bolt.argument_error err)) ∧
  (∀ db', strict.PutFile db u f ct2 b2 uuid = Commit db' →
     strict.descriptor db' u f =
       Some {| ID := ID fm; ContentType := ct2; ContentLength := len b2 |} ∧
     (∀ uuid', strict.PutFile db u f ct2 b2 uuid' = Commit db') ∧
     FileBucket db' = <[ID fm := b2]> (FileBucket db) ∧
     strict.GetFile db' u f = (Some b2, ct2, true) ∧
     length (filter (λ x, x = f) (strict.ListFilenames db' u)) = 1).
Proof.
  intros Hwf Hct Hfm.
  destruct (strict_well_formed_loaded db u Hwf) as (m & Hm & Hvalid).
  rewrite (strict_descriptor_lookup _ _ _ _ Hm) in Hfm.
  split; [apply strict_PutFile_outcome; by eauto|].
  intros db' Hput.
  assert (∀ uuid', stamped (m !! f) ct2 b2 uuid' =
                   {| ID := ID fm; ContentType := ct2; ContentLength := len b2 |}) as Hst
    by by intros; rewrite Hfm.
  destruct (Hvalid _ _ Hfm) as (Hf & Hid & _).
  assert (strict.descriptor db' u f =
          Some {| ID := ID fm; ContentType := ct2; ContentLength := len b2 |}) as Hd.
  { pose proof (strict_PutFile_Commit _ _ _ _ _ _ _ Hput) as (m' & Hm' & ->).
    simplify_eq. unfold strict.descriptor.
    rewrite strict_loaded_insert_eq.
    - simpl. by rewrite lookup_insert_eq, Hst.
    - rewrite Hst. by apply strict_valid_map_insert. }
  pose proof (strict_PutFile_Commit _ _ _ _ _ _ _ Hput) as (m' & Hm' & Hdb').
  simplify_eq.
  split; [done|]. split.
  { intros uuid'. rewrite (strict_PutFile_loaded _ _ _ _ _ uuid' _ Hm).
    rewrite (strict_PutFile_loaded _ _ _ _ _ uuid _ Hm) in Hput.
    rewrite !Hst in Hput. by rewrite !Hst. }
  split; [simpl; by rewrite Hfm|]. split.
  - rewrite strict_GetFile_descriptor, Hd. simpl. by rewrite Hfm, lookup_insert_eq.
  - apply NoDup_filter_eq_length; [apply strict_NoDup_ListFilenames|].
    apply strict_elem_of_ListFilenames. by rewrite Hd.
Qed.

(** ** Further properties, for valid UTF-8 names and types *)

Lemma strict_DeleteFile_cases db u f :
  (strict.descriptor db u f = None ∧ after db (strict.DeleteFile db u f) = db) ∨
  (∃ m fm, strict.loaded db u = Some m ∧ m !! f = Some fm ∧
           strict.DeleteFile db u f =
             match strict.bolt.Put u
                     (strict.Marshal {| Files := Some (delete f m) |})
                     (UserFileBucket db) with
             | inl err => Rollback err
             | inr userFilesBucket =>
                 Commit {| UserFileBucket := userFilesBucket;
                           FileBucket := delete (ID fm) (FileBucket db) |}
             end).
Proof.
  unfold_strict.
  destruct (UserFileBucket db !! u) as [v|]; simpl.
  - destruct (strict.Unmarshal v) as [[[m|]]|]; simpl; [|by left..].
    destruct (m !! f) as [fm|] eqn:Hf; [|by left].
    right. by exists m, fm.
  - left. by rewrite lookup_empty.
Qed.

Lemma strict_DeleteFile_outcome db u f :
  strict.well_formed db →
  (∃ db', strict.DeleteFile db u f = Commit db') ∨
  strict.DeleteFile db u f = Rollback (errors_New "file not found") ∨
  (∃ err, strict.DeleteFile db u f = Rollback err ∧ strict.bolt.argument_error err).
Proof.
  intros Hwf. unfold strict.DeleteFile, strict.bolt.Get.
  destruct (UserFileBucket db !! u) as [v|] eqn:Hv; [|by eauto].
  destruct (Hwf _ _ Hv) as (m & -> & _). simpl.
  destruct (m !! f) as [fm|]; [|by eauto].
  destruct (strict_Put_cases u (strict.Marshal {| Files := Some (delete f m) |})
              (UserFileBucket db)) as [(e & Heq & He)|Heq]; rewrite Heq; by eauto 10.
Qed.

Lemma strict_valid_map_delete m f :
  strict.valid_map m → strict.valid_map (delete f m).
Proof. apply map_Forall_delete. Qed.

(** The descriptors after a committed [DeleteFile]. *)
Lemma strict_descriptor_after_DeleteFile db u f db' u' f' :
  strict.well_formed db →
  strict.DeleteFile db u f = Commit db' →
  strict.descriptor db' u' f' =
    if decide (u' = u ∧ f' = f) then None else strict.descriptor db u' f'.
Proof.
  intros Hwf Hdel.
  destruct (strict_well_formed_loaded db u Hwf) as (m0 & Hm0 & Hvalid).
  destruct (strict_DeleteFile_cases db u f) as [[Hnone Hsame]|(m & fm & Hm & Hf & Heq)].
  - rewrite Hdel in Hsame. simpl in Hsame. subst db'.
    case_decide as Hc; [|done]. by destruct Hc as [-> ->].
  - simplify_eq. rewrite Heq in Hdel.
    destruct (strict_Put_cases u (strict.Marshal {| Files := Some (delete f m0) |})
                (UserFileBucket db)) as [(e & Hp & _)|Hp]; rewrite Hp in Hdel; [done|].
    simplify_eq. unfold strict.descriptor at 1.
    destruct (decide (u = u')) as [<-|Hne].
    + rewrite strict_loaded_insert_eq by by apply strict_valid_map_delete.
      simpl. unfold strict.descriptor. rewrite Hm0. simpl.
      destruct (decide (f' = f)) as [->|Hf'].
      * by rewrite lookup_delete_eq, decide_True.
      * rewrite lookup_delete_ne by done. rewrite decide_False; [done|by intros [_ ?]].
    + rewrite strict_loaded_insert_ne by done.
      rewrite decide_False; [by destruct db|by intros [? _]].
Qed.

Lemma strict_FileBucket_after_DeleteFile db u f db' :
  strict.DeleteFile db u f = Commit db' →
  FileBucket db' =
    match strict.descriptor db u f with
    | Some fm => delete (ID fm) (FileBucket db)
    | None => FileBucket db
    end.
Proof.
  intros Hdel.
  destruct (strict_DeleteFile_cases db u f) as [[Hnone Hsame]|(m & fm & Hm & Hf & Heq)].
  - rewrite Hdel in Hsame. simpl in Hsame. subst db'. by rewrite Hnone.
  - rewrite (strict_descriptor_lookup _ _ _ _ Hm), Hf. rewrite Heq in Hdel.
    destruct (strict.bolt.Put u (strict.Marshal {| Files := Some (delete f m) |})
                (UserFileBucket db)); by simplify_eq.
Qed.

Lemma strict_well_formed_after_PutFile db u f ct b uuid :
  strict.well_formed db →
  utf8.Valid f → utf8.Valid ct → utf8.Valid uuid →
  strict.well_formed (after db (strict.PutFile db u f ct b uuid)).
Proof.
  intros Hwf Hf Hct Huuid.
  destruct (strict.PutFile db u f ct b uuid) as [db'| |] eqn:Hput; [|done..].
  destruct (strict_well_formed_loaded db u Hwf) as (m & Hm & Hvalid).
  apply strict_PutFile_Commit in Hput as (m' & Hm' & ->). simplify_eq.
  intros u' v. simpl. destruct (decide (u = u')) as [<-|Hne].
  - rewrite lookup_insert_eq. intros [= <-]. eexists. split.
    + apply strict.Unmarshal_Marshal. intros m2 [= <-].
      by apply strict_valid_map_stamped.
    + by apply strict_valid_map_stamped.
  - rewrite lookup_insert_ne by done. apply Hwf.
Qed.

Lemma strict_well_formed_after_DeleteFile db u f :
  strict.well_formed db → strict.well_formed (after db (strict.DeleteFile db u f)).
Proof.
  intros Hwf.
  destruct (strict_well_formed_loaded db u Hwf) as (m0 & Hm0 & Hvalid).
  destruct (strict_DeleteFile_cases db u f) as [[_ ->]|(m & fm & Hm & Hf & ->)]; [done|].
  simplify_eq.
  destruct (strict_Put_cases u (strict.Marshal {| Files := Some (delete f m0) |})
              (UserFileBucket db)) as [(e & Hp & _)|Hp]; rewrite Hp; [done|].
  intros u' v. simpl. destruct (decide (u = u')) as [<-|Hne].
  - rewrite lookup_insert_eq. intros [= <-]. eexists. split.
    + apply strict.Unmarshal_Marshal. intros m2 [= <-].
      by apply strict_valid_map_delete.
    + by apply strict_valid_map_delete.
  - rewrite lookup_insert_ne by done. apply Hwf.
Qed.

Lemma strict_no_orphans_after_PutFile db u f ct b uuid :
  strict.well_formed db →
  utf8.Valid f → utf8.Valid ct → utf8.Valid uuid →
  strict.no_orphans db →
  strict.no_orphans (after db (strict.PutFile db u f ct b uuid)).
Proof.
  intros Hwf Hf Hct Huuid Hno.
  destruct (strict.PutFile db u f ct b uuid) as [db'| |] eqn:Hput; [|done..].
  destruct (strict_well_formed_loaded db u Hwf) as (m & Hm & Hvalid).
  pose proof (strict_descriptor_after_PutFile db u f ct b uuid db' m) as Hdesc.
  pose proof (strict_PutFile_Commit _ _ _ _ _ _ _ Hput) as (m' & Hm' & Hdb').
  simplify_eq. simpl. intros id. simpl.
  destruct (decide (ID (stamped (m !! f) ct b uuid) = id)) as [<-|Hne].
  - intros _. exists u, f, (stamped (m !! f) ct b uuid). split; [|done].
    rewrite Hdesc by done. by rewrite decide_True.
  - rewrite lookup_insert_ne by done. intros Hsome.
    destruct (Hno _ Hsome) as (u' & f' & fm' & Hd & Hid).
    exists u', f', fm'. split; [|done].
    rewrite Hdesc by done.
    rewrite decide_False; [done|]. intros [-> ->]. destruct Hne.
    rewrite (strict_descriptor_lookup _ _ _ _ Hm) in Hd. rewrite Hd. simpl. done.
Qed.

Lemma strict_no_orphans_after_DeleteFile db u f :
  strict.well_formed db →
  strict.no_orphans db →
  strict.no_orphans (after db (strict.DeleteFile db u f)).
Proof.
  intros Hwf Hno.
  destruct (strict.DeleteFile db u f) as [db'| |] eqn:Hdel; [|done..].
  simpl. intros id.
  rewrite (strict_FileBucket_after_DeleteFile _ _ _ _ Hdel).
  pose proof (strict_descriptor_after_DeleteFile db u f db') as Hdesc.
  destruct (strict.descriptor db u f) as [fm|] eqn:Hf.
  - intros Hsome. destruct (decide (ID fm = id)) as [<-|Hne].
    { rewrite lookup_delete_eq in Hsome. by destruct Hsome. }
    rewrite lookup_delete_ne in Hsome by done.
    destruct (Hno _ Hsome) as (u' & f' & fm' & Hd & Hid).
    exists u', f', fm'. split; [|done].
    rewrite Hdesc by done. rewrite decide_False; [done|].
    intros [-> ->]. congruence.
  - intros Hsome. destruct (Hno _ Hsome) as (u' & f' & fm' & Hd & Hid).
    exists u', f', fm'. split; [|done].
    rewrite Hdesc by done. rewrite decide_False; [done|].
    intros [-> ->]. congruence.
Qed.

Lemma strict_reachable_invariants db :
  rtc strict.step init db → strict.well_formed db ∧ strict.no_orphans db.
Proof.
  intros Hreach. pattern db. revert db Hreach. apply rtc_ind_r.
  - split.
    + intros u v Hv. simpl in Hv. by rewrite lookup_empty in Hv.
    + intros id [blob Hblob]. simpl in Hblob. by rewrite lookup_empty in Hblob.
  - intros db db' _ Hstep [Hwf Hno].
    destruct Hstep as [db u f ct b uuid Hf Hct Huuid _|db u f].
    + split; [by apply strict_well_formed_after_PutFile
             |by apply strict_no_orphans_after_PutFile].
    + split; [by apply strict_well_formed_after_DeleteFile
             |by apply strict_no_orphans_after_DeleteFile].
Qed.

(** X3. On a database reached from the initial one by uploads of valid
    UTF-8 names and types and by deletions, every stored record decodes to
    an allocated map, so an operation fails only where Bolt refuses a
    write: [PutFile] commits or returns an argument error of [Put], and
    [DeleteFile] commits, returns "file not found", or returns such an
    error; neither panics or meets a record it cannot decode. *)
Theorem strict_reachable_operations db u f ct b uuid :
  rtc strict.step init db →
  strict.well_formed db ∧
  ((∃ db', strict.PutFile db u f ct b uuid = Commit db') ∨
   (∃ err, strict.PutFile db u f ct b uuid = Rollback err ∧
           strict.bolt.argument_error err)) ∧
  ((∃ db', strict.DeleteFile db u f = Commit db') ∨
   strict.DeleteFile db u f = Rollback (errors_New "file not found") ∨
   (∃ err, strict.DeleteFile db u f = Rollback err ∧ strict.bolt.argument_error err)).
Proof.
  intros [Hwf _]%strict_reachable_invariants. split; [done|]. split.
  - apply strict_PutFile_outcome.
    destruct (strict_well_formed_loaded db u Hwf) as (m & Hm & _). by eauto.
  - by apply strict_DeleteFile_outcome.
Qed.

(** X5. On a database reached from the initial one by uploads of valid
    UTF-8 names and types and by deletions, no blob is left behind: every
    key of [FileBucket] is the identifier of some user's descriptor. *)
Theorem strict_reachable_no_orphans db fileID :
  rtc strict.step init db →
  is_Some (FileBucket db !! fileID) →
  ∃ u f fm, strict.descriptor db u f = Some fm ∧ ID fm = fileID.
Proof. intros [_ Hno]%strict_reachable_invariants. apply Hno. Qed.

(** X6. Last write wins: after a committed [PutFile] of [(u, f)] with a
    valid UTF-8 name and type, a second [PutFile] of [(u, f)] returns what
    the second one alone, with the first one's identifier, returns on the
    original database.  In particular, repeating the same [PutFile] changes
    nothing. *)
Theorem strict_PutFile_last_write_wins db u f ct1 b1 uuid db1 ct2 b2 uuid' :
  strict.well_formed db →
  utf8.Valid f → utf8.Valid ct1 → utf8.Valid uuid →
  strict.PutFile db u f ct1 b1 uuid = Commit db1 →
  strict.PutFile db1 u f ct2 b2 uuid' = strict.PutFile db u f ct2 b2 uuid ∧
  strict.PutFile db1 u f ct1 b1 uuid' = Commit db1.
Proof.
  intros Hwf Hf Hct Huuid Hput.
  destruct (strict_well_formed_loaded db u Hwf) as (m & Hm & Hvalid).
  pose proof (strict_PutFile_Commit _ _ _ _ _ _ _ Hput) as (m' & Hm' & ->).
  simplify_eq.
  assert (∀ ct b,
    strict.PutFile
      {| UserFileBucket :=
           <[u := strict.Marshal
                    {| Files := Some (<[f := stamped (m !! f) ct1 b1 uuid]> m) |}]>
             (UserFileBucket db);
         FileBucket := <[ID (stamped (m !! f) ct1 b1 uuid) := b1]> (FileBucket db) |}
      u f ct b uuid' = strict.PutFile db u f ct b uuid) as Hsecond.
  { intros ct b.
    rewrite (strict_PutFile_loaded _ _ _ _ _ _ (<[f := stamped (m !! f) ct1 b1 uuid]> m))
      by by apply strict_loaded_insert_eq, strict_valid_map_stamped.
    rewrite (strict_PutFile_loaded _ _ _ _ _ _ _ Hm). simpl.
    rewrite lookup_insert_eq, !insert_insert_eq.
    assert (stamped (Some (stamped (m !! f) ct1 b1 uuid)) ct b uuid' =
            stamped (m !! f) ct b uuid) as -> by by destruct (m !! f).
    unfold strict.bolt.Put. repeat case_decide; try done.
    by rewrite !insert_insert_eq. }
  split; [apply Hsecond|].
  by rewrite Hsecond.
Qed.

(** The identifier [PutFile] writes under is referenced by no other pair. *)
Lemma strict_stamped_ID_unshared db u f ct b uuid m u' f' fm' :
  strict.referential_integrity db → FileBucket db !! uuid = None →
  strict.loaded db u = Some m →
  strict.descriptor db u' f' = Some fm' →
  ID fm' = ID (stamped (m !! f) ct b uuid) →
  u' = u ∧ f' = f.
Proof.
  intros [Hlive Hun] Hfresh Hm Hd Hid.
  destruct (m !! f) as [old|] eqn:Hold; simpl in Hid.
  - eapply Hun; [exact Hd| |exact Hid].
    by rewrite (strict_descriptor_lookup _ _ _ _ Hm).
  - destruct (Hlive _ _ _ Hd) as [blob Hblob]. congruence.
Qed.

(** X7. On a well-formed database with referential integrity, [PutFile] of
    [(u, f)] with a valid UTF-8 name and type and a fresh identifier does
    not disturb any other file: [GetFile] of every other (user, file name)
    pair, of the same user or another, returns what it returned before. *)
Theorem strict_PutFile_frame db u f ct b uuid u' f' :
  strict.well_formed db →
  strict.referential_integrity db →
  utf8.Valid f → utf8.Valid ct → utf8.Valid uuid →
  FileBucket db !! uuid = None →
  ¬ (u' = u ∧ f' = f) →
  strict.GetFile (after db (strict.PutFile db u f ct b uuid)) u' f' =
  strict.GetFile db u' f'.
Proof.
  intros Hwf Hri Hf Hct Huuid Hfresh Hne.
  destruct (strict.PutFile db u f ct b uuid) as [db'| |] eqn:Hput; [|done..].
  destruct (strict_well_formed_loaded db u Hwf) as (m & Hm & Hvalid).
  simpl. rewrite !strict_GetFile_descriptor.
  rewrite (strict_descriptor_after_PutFile _ _ _ _ _ _ _ _ _ _ Hvalid Hf Hct Huuid Hm Hput).
  rewrite decide_False by done.
  destruct (strict.descriptor db u' f') as [fm'|] eqn:Hd; [|done].
  assert (ID (stamped (m !! f) ct b uuid) ≠ ID fm') as Hid.
  { intros Hid. destruct Hne. symmetry in Hid.
    exact (strict_stamped_ID_unshared db u f ct b uuid m u' f' fm' Hri Hfresh Hm Hd Hid). }
  apply strict_PutFile_Commit in Hput as (m' & Hm' & ->). simplify_eq. simpl.
  by rewrite lookup_insert_ne.
Qed.

(** X9. After a committed [PutFile] of [(u, f)] with a valid UTF-8 name and
    type, the listing of [u] holds [f] and the names it held before, and
    nothing else; the listing of every other user is the same list as
    before. *)
Theorem strict_ListFilenames_after_PutFile db u f ct b uuid db' :
  strict.well_formed db →
  utf8.Valid f → utf8.Valid ct → utf8.Valid uuid →
  strict.PutFile db u f ct b uuid = Commit db' →
  (∀ f', f' ∈ strict.ListFilenames db' u ↔ f' = f ∨ f' ∈ strict.ListFilenames db u) ∧
  (∀ u', u' ≠ u → strict.ListFilenames db' u' = strict.ListFilenames db u').
Proof.
  intros Hwf Hf Hct Huuid Hput.
  destruct (strict_well_formed_loaded db u Hwf) as (m & Hm & Hvalid).
  split.
  - intros f'. rewrite !strict_elem_of_ListFilenames.
    rewrite (strict_descriptor_after_PutFile _ _ _ _ _ _ _ _ _ _ Hvalid Hf Hct Huuid Hm Hput).
    case_decide as Hc.
    + destruct Hc as [_ ->]. split; [by left|by eauto].
    + split; [by right|]. intros [->|?]; [by destruct Hc|done].
  - intros u' Hne. rewrite !strict_ListFilenames_loaded.
    apply strict_PutFile_Commit in Hput as (m' & Hm' & ->).
    rewrite strict_loaded_insert_ne by done. by destruct db.
Qed.

(** X13. Upload then delete: after a committed [PutFile] of a name the user
    did not have, valid UTF-8 with its type, under a fresh identifier, a
    committed [DeleteFile] of that name leaves [FileBucket] and every
    descriptor as they were at the start. *)
Theorem strict_PutFile_DeleteFile_restores db u f ct b uuid db1 db2 :
  strict.well_formed db →
  utf8.Valid f → utf8.Valid ct → utf8.Valid uuid →
  strict.descriptor db u f = None →
  FileBucket db !! uuid = None →
  strict.PutFile db u f ct b uuid = Commit db1 →
  strict.DeleteFile db1 u f = Commit db2 →
  FileBucket db2 = FileBucket db ∧
  ∀ u' f', strict.descriptor db2 u' f' = strict.descriptor db u' f'.
Proof.
  intros Hwf Hf Hct Huuid Hnone Hfresh Hput Hdel.
  destruct (strict_well_formed_loaded db u Hwf) as (m & Hm & Hvalid).
  assert (m !! f = None) as Hmf by by rewrite <-(strict_descriptor_lookup _ _ _ _ Hm).
  pose proof (strict_descriptor_after_PutFile db u f ct b uuid db1 m) as Hd1.
  assert (strict.well_formed db1) as Hwf1.
  { pose proof (strict_well_formed_after_PutFile db u f ct b uuid Hwf Hf Hct Huuid) as Hw.
    by rewrite Hput in Hw. }
  split.
  - rewrite (strict_FileBucket_after_DeleteFile _ _ _ _ Hdel).
    rewrite Hd1, decide_True, Hmf by done. simpl.
    apply strict_PutFile_Commit in Hput as (m' & Hm' & ->). simplify_eq. simpl.
    rewrite Hmf. simpl. rewrite delete_insert_eq. by apply delete_id.
  - intros u' f'.
    rewrite (strict_descriptor_after_DeleteFile _ _ _ _ _ _ Hwf1 Hdel).
    rewrite Hd1 by done.
    case_decide as Hc; [|done]. by destruct Hc as [-> ->].
Qed.


End strict_properties.

(** ** The two embeddings side by side *)

Section exact_and_strict.
Context `{!json.Codec}.
#[local] Existing Instance strict_of_exact.

(** The readers are the same functions. *)
Lemma strict_readers_exact db u f :
  strict.GetFile db u f = GetFile db u f ∧
  strict.ListFilenames db u = ListFilenames db u.
Proof. done. Qed.

(** Where the strict operations commit, the first embedding commits the
    same database: it differs only where Bolt refuses a write. *)
Lemma strict_PutFile_exact db u f ct b uuid db' :
  strict.PutFile db u f ct b uuid = Commit db' →
  PutFile db u f ct b uuid = Commit db'.
Proof.
  intros (m & Hm & ->)%strict_PutFile_Commit.
  by rewrite (PutFile_loaded db u f ct b uuid m Hm).
Qed.

Lemma strict_DeleteFile_exact db u f db' :
  strict.DeleteFile db u f = Commit db' →
  DeleteFile db u f = Commit db'.
Proof.
  unfold strict.DeleteFile, DeleteFile, strict.bolt.Get, bolt.Get, bolt.Put,
    strict.bolt.Delete, bolt.Delete.
  destruct (UserFileBucket db !! u) as [v|]; [|done]. simpl.
  destruct (json.Unmarshal v) as [[files]|]; [|done]. simpl.
  destruct (files ≫= (.!! f)) as [fm|]; [|done].
  destruct (strict_Put_cases u (json.Marshal {| Files := delete f <$> files |})
              (UserFileBucket db)) as [(e & Hp & _)|Hp]; simpl in Hp; rewrite Hp; [done|].
  by intros [= <-].
Qed.

End exact_and_strict.

(** ** The strict properties on the example databases *)

Section strict_examples.
#[local] Existing Instance strict_reference_codec.

Lemma bob_index_valid : strict.valid_data bob_index.
Proof.
  intros m [= <-]. apply map_Forall_singleton. repeat split; reflexivity.
Qed.

Lemma sdb_bob_PutFile :
  strict.PutFile init "bob" "a.txt" "text/plain" [x68; x69] "id-1" = Commit sdb_bob.
Proof. vm_compute. reflexivity. Qed.

Lemma sdb_bob_reachable : rtc strict.step init sdb_bob.
Proof.
  apply rtc_once.
  change sdb_bob
    with (after init (strict.PutFile init "bob" "a.txt" "text/plain" [x68; x69] "id-1")).
  apply strict.step_Put; reflexivity.
Qed.

Lemma sdb_bob_well_formed : strict.well_formed sdb_bob.
Proof.
  intros u v Hv. unfold sdb_bob in Hv. simpl in Hv.
  apply lookup_singleton_Some in Hv as [_ <-].
  exists {[ "a.txt" := a_txt ]}. split.
  - exact (strict.Unmarshal_Marshal bob_index bob_index_valid).
  - by apply bob_index_valid.
Qed.

Lemma sdb_bob_descriptor u f fm :
  strict.descriptor sdb_bob u f = Some fm → u = "bob" ∧ f = "a.txt" ∧ fm = a_txt.
Proof.
  unfold strict.descriptor, strict.loaded, sdb_bob. cbn [UserFileBucket].
  destruct (decide (u = "bob")) as [->|Hne].
  - rewrite lookup_singleton_eq.
    rewrite (strict.Unmarshal_Marshal bob_index bob_index_valid). cbn [mbind option_bind Files bob_index].
    intros [<- <-]%lookup_singleton_Some. done.
  - rewrite lookup_singleton_ne by done. cbn [mbind option_bind]. by rewrite lookup_empty.
Qed.

Lemma sdb_bob_a_txt : strict.descriptor sdb_bob "bob" "a.txt" = Some a_txt.
Proof. vm_compute. reflexivity. Qed.

Lemma sdb_bob_referential_integrity : strict.referential_integrity sdb_bob.
Proof.
  split.
  - intros u f fm (-> & -> & ->)%sdb_bob_descriptor. by exists [x68; x69].
  - intros u1 f1 fm1 u2 f2 fm2 (-> & -> & ->)%sdb_bob_descriptor
      (-> & -> & ->)%sdb_bob_descriptor _. done.
Qed.

Lemma sdb_bob_PutFile_b_txt :
  strict.PutFile sdb_bob "bob" "b.txt" "text/html" [x61] "id-2" =
  Commit (after sdb_bob (strict.PutFile sdb_bob "bob" "b.txt" "text/html" [x61] "id-2")).
Proof. vm_compute. reflexivity. Qed.

Lemma strict_PutFile_GetFile_roundtrip_witness :
  ((∃ db', strict.PutFile sdb_bob "bob" "b.txt" "text/html" [x61] "id-2" = Commit db') ∨
   (∃ err, strict.PutFile sdb_bob "bob" "b.txt" "text/html" [x61] "id-2" = Rollback err ∧
           strict.bolt.argument_error err)) ∧
  (∀ db', strict.PutFile sdb_bob "bob" "b.txt" "text/html" [x61] "id-2" = Commit db' →
          strict.GetFile db' "bob" "b.txt" = (Some [x61], "text/html", true)).
Proof.
  apply (strict_PutFile_GetFile_roundtrip sdb_bob "bob" "b.txt" "text/html" [x61] "id-2").
  - exact sdb_bob_well_formed.
  - reflexivity.
  - reflexivity.
  - reflexivity.
Defined.

(** C1 as the specification words it fails in three ways on the initial
    database: for the empty user identifier Bolt refuses the write, so the
    file is not there afterwards; for the file name [FF] the upload commits
    and the file is not found under that name; for the content type [FF]
    the upload commits and the download returns U+FFFD as the type. *)
Lemma strict_PutFile_GetFile_counterexample :
  strict.well_formed init ∧
  (strict.PutFile init "" "a.txt" "text/plain" [x68; x69] "id-1" =
     Rollback (errors_New "key required") ∧
   strict.GetFile
     (after init (strict.PutFile init "" "a.txt" "text/plain" [x68; x69] "id-1"))
     "" "a.txt" = (None, "", false)) ∧
  (∃ db', strict.PutFile init "bob" xFF "text/plain" [x68; x69] "id-1" = Commit db' ∧
          strict.GetFile db' "bob" xFF = (None, "", false)) ∧
  (∃ db', strict.PutFile init "bob" "a.txt" xFF [x68; x69] "id-1" = Commit db' ∧
          strict.GetFile db' "bob" "a.txt" = (Some [x68; x69], utf8.RuneError, true) ∧
          utf8.RuneError ≠ xFF).
Proof.
  split; [by intros u v Hv; simpl in Hv; rewrite lookup_empty in Hv|].
  split; [by vm_compute|].
  split.
  - eexists. split; [reflexivity|]. vm_compute. reflexivity.
  - eexists. split; [reflexivity|]. split; [vm_compute; reflexivity|discriminate].
Qed.

Lemma strict_PutFile_overwrite_witness :
  ((∃ db', strict.PutFile sdb_bob "bob" "a.txt" "text/html" [x61; x62; x63] "id-2" = Commit db') ∨
   (∃ err, strict.PutFile sdb_bob "bob" "a.txt" "text/html" [x61; x62; x63] "id-2" =
             Rollback err ∧ strict.bolt.argument_error err)) ∧
  (∀ db', strict.PutFile sdb_bob "bob" "a.txt" "text/html" [x61; x62; x63] "id-2" = Commit db' →
     strict.descriptor db' "bob" "a.txt" =
       Some {| ID := ID a_txt; ContentType := "text/html";
               ContentLength := len [x61; x62; x63] |} ∧
     (∀ uuid', strict.PutFile sdb_bob "bob" "a.txt" "text/html" [x61; x62; x63] uuid' =
               Commit db') ∧
     FileBucket db' = <[ID a_txt := [x61; x62; x63]]> (FileBucket sdb_bob) ∧
     strict.GetFile db' "bob" "a.txt" = (Some [x61; x62; x63], "text/html", true) ∧
     length (filter (λ x, x = "a.txt") (strict.ListFilenames db' "bob")) = 1).
Proof.
  apply (strict_PutFile_overwrite sdb_bob "bob" "a.txt" "text/html" [x61; x62; x63] "id-2" a_txt).
  - exact sdb_bob_well_formed.
  - reflexivity.
  - exact sdb_bob_a_txt.
Defined.

(** C4 as the specification words it fails for the content type [FF]: bob
    has a.txt, the overwrite commits under the old identifier, and both the
    stored descriptor and the download carry U+FFFD as the type. *)
Lemma strict_PutFile_overwrite_counterexample :
  strict.well_formed sdb_bob ∧
  strict.descriptor sdb_bob "bob" "a.txt" = Some a_txt ∧
  ∃ db', strict.PutFile sdb_bob "bob" "a.txt" xFF [x61] "id-2" = Commit db' ∧
         strict.descriptor db' "bob" "a.txt" =
           Some {| ID := "id-1"; ContentType := utf8.RuneError; ContentLength := 1 |} ∧
         strict.GetFile db' "bob" "a.txt" = (Some [x61], utf8.RuneError, true) ∧
         utf8.RuneError ≠ xFF.
Proof.
  split; [exact sdb_bob_well_formed|]. split; [exact sdb_bob_a_txt|].
  eexists. split; [reflexivity|].
  split; [vm_compute; reflexivity|]. split; [vm_compute; reflexivity|discriminate].
Qed.

Lemma strict_reachable_operations_witness :
  strict.well_formed sdb_bob ∧
  ((∃ db', strict.PutFile sdb_bob "bob" "b.txt" "text/html" [x61] "id-2" = Commit db') ∨
   (∃ err, strict.PutFile sdb_bob "bob" "b.txt" "text/html" [x61] "id-2" = Rollback err ∧
           strict.bolt.argument_error err)) ∧
  ((∃ db', strict.DeleteFile sdb_bob "bob" "b.txt" = Commit db') ∨
   strict.DeleteFile sdb_bob "bob" "b.txt" = Rollback (errors_New "file not found") ∨
   (∃ err, strict.DeleteFile sdb_bob "bob" "b.txt" = Rollback err ∧
           strict.bolt.argument_error err)).
Proof.
  apply (strict_reachable_operations sdb_bob "bob" "b.txt" "text/html" [x61] "id-2").
  exact sdb_bob_reachable.
Defined.

Lemma strict_reachable_no_orphans_witness :
  ∃ u f fm, strict.descriptor sdb_bob u f = Some fm ∧ ID fm = "id-1".
Proof.
  apply (strict_reachable_no_orphans sdb_bob "id-1").
  - exact sdb_bob_reachable.
  - exists [x68; x69]. reflexivity.
Defined.

Lemma strict_PutFile_last_write_wins_witness :
  let db1 := after sdb_bob (strict.PutFile sdb_bob "bob" "b.txt" "text/html" [x61] "id-2") in
  strict.PutFile db1 "bob" "b.txt" "image/png" [x00; x01] "id-3" =
    strict.PutFile sdb_bob "bob" "b.txt" "image/png" [x00; x01] "id-2" ∧
  strict.PutFile db1 "bob" "b.txt" "text/html" [x61] "id-3" = Commit db1.
Proof.
  apply (strict_PutFile_last_write_wins sdb_bob "bob" "b.txt" "text/html" [x61] "id-2").
  - exact sdb_bob_well_formed.
  - reflexivity.
  - reflexivity.
  - reflexivity.
  - exact sdb_bob_PutFile_b_txt.
Defined.

Lemma strict_PutFile_frame_witness :
  strict.GetFile
    (after sdb_bob (strict.PutFile sdb_bob "bob" "b.txt" "text/html" [x61] "id-2"))
    "bob" "a.txt" =
  strict.GetFile sdb_bob "bob" "a.txt".
Proof.
  apply (strict_PutFile_frame sdb_bob "bob" "b.txt" "text/html" [x61] "id-2" "bob" "a.txt").
  - exact sdb_bob_well_formed.
  - exact sdb_bob_referential_integrity.
  - reflexivity.
  - reflexivity.
  - reflexivity.
  - reflexivity.
  - intros [_ Hf]. discriminate Hf.
Defined.

Lemma strict_ListFilenames_after_PutFile_witness :
  let db1 := after sdb_bob (strict.PutFile sdb_bob "bob" "b.txt" "text/html" [x61] "id-2") in
  (∀ f', f' ∈ strict.ListFilenames db1 "bob" ↔
         f' = "b.txt" ∨ f' ∈ strict.ListFilenames sdb_bob "bob") ∧
  (∀ u', u' ≠ "bob" → strict.ListFilenames db1 u' = strict.ListFilenames sdb_bob u').
Proof.
  apply (strict_ListFilenames_after_PutFile sdb_bob "bob" "b.txt" "text/html" [x61] "id-2").
  - exact sdb_bob_well_formed.
  - reflexivity.
  - reflexivity.
  - reflexivity.
  - exact sdb_bob_PutFile_b_txt.
Defined.

Lemma strict_PutFile_DeleteFile_restores_witness :
  let db1 := after sdb_bob (strict.PutFile sdb_bob "bob" "b.txt" "text/html" [x61] "id-2") in
  let db2 := after db1 (strict.DeleteFile db1 "bob" "b.txt") in
  FileBucket db2 = FileBucket sdb_bob ∧
  ∀ u' f', strict.descriptor db2 u' f' = strict.descriptor sdb_bob u' f'.
Proof.
  apply (strict_PutFile_DeleteFile_restores sdb_bob "bob" "b.txt" "text/html" [x61] "id-2"
           (after sdb_bob (strict.PutFile sdb_bob "bob" "b.txt" "text/html" [x61] "id-2"))).
  - exact sdb_bob_well_formed.
  - reflexivity.
  - reflexivity.
  - reflexivity.
  - vm_compute. reflexivity.
  - reflexivity.
  - exact sdb_bob_PutFile_b_txt.
  - vm_compute. reflexivity.
Defined.


(** The upload of a file named [FF]: it is stored and listed as U+FFFD,
    and a second upload of the name draws a second identifier while the
    first blob stays behind. *)
Example strict_PutFile_xFF :
  let db1 := after init (strict.PutFile init "bob" xFF "text/plain" [x68; x69] "id-1") in
  let db2 := after db1 (strict.PutFile db1 "bob" xFF "text/plain" [x61] "id-2") in
  strict.ListFilenames db1 "bob" = [utf8.RuneError] ∧
  strict.GetFile db1 "bob" utf8.RuneError = (Some [x68; x69], "text/plain", true) ∧
  strict.ListFilenames db2 "bob" = [utf8.RuneError] ∧
  strict.GetFile db2 "bob" utf8.RuneError = (Some [x61], "text/plain", true) ∧
  FileBucket db2 !! "id-1" = Some [x68; x69].
Proof. vm_compute. done. Qed.

End strict_examples.
